(** * beta4: the AI helper module and the student-profile page

    A shallow embedding of the two source files of the repository:

    - the Gemini helper module ([getAIClient], [fileToGenerativePart],
      [generateSessionContent], [extractStudentNamesFromImage],
      [extractGradesFromImage]);
    - [pages/StudentProfile.tsx] ([fetchData], [handleSave],
      [calculateAverage] and the class label of the rendered header).

    JavaScript strings are sequences of UTF-16 code units, numbers are
    IEEE-754 binary64 values, and the asynchronous functions are written in a
    small monad that threads the trace of observable effects (console output,
    file reads, network requests, alerts) and an exception. *)

From Stdlib Require Import List Bool Arith ZArith NArith Lia String Ascii.
From Stdlib Require Import SpecFloat.
Import ListNotations.

(* ================================================================== *)
(** * JavaScript strings                                               *)
(* ================================================================== *)

Module JsString.

(** A string value is a finite sequence of 16-bit code units. *)
Definition code_unit := N.
Definition jsstring := list code_unit.

(** String literals of the source, written as Rocq strings (one code unit
    per character, all of them ASCII in this program). *)
Definition js (s : string) : jsstring :=
  map N_of_ascii (list_ascii_of_string s).

Definition LF : code_unit := 10%N.
Definition DQUOTE : code_unit := 34%N.
Definition BACKTICK : code_unit := 96%N.

Definition eqb (a b : jsstring) : bool :=
  if list_eq_dec N.eq_dec a b then true else false.

(** [WhiteSpace] and [LineTerminator] of ECMA-262: the code units matched by
    the regular-expression class [\s] and removed by
    [String.prototype.trim]. *)
Definition is_space (c : code_unit) : bool :=
  ((9 <=? c) && (c <=? 13) || (c =? 32) || (c =? 160) || (c =? 5760)
   || (8192 <=? c) && (c <=? 8202) || (c =? 8232) || (c =? 8233)
   || (c =? 8239) || (c =? 8287) || (c =? 12288) || (c =? 65279))%N.

(** [String.prototype.trimStart]. *)
Fixpoint trimStart (s : jsstring) : jsstring :=
  match s with
  | [] => []
  | c :: r => if is_space c then trimStart r else s
  end.

(** [String.prototype.trimEnd]. *)
Fixpoint trimEnd (s : jsstring) : jsstring :=
  match s with
  | [] => []
  | c :: r =>
      match trimEnd r with
      | [] => if is_space c then [] else [c]
      | r' => c :: r'
      end
  end.

(** [String.prototype.trim]. *)
Definition trim (s : jsstring) : jsstring := trimEnd (trimStart s).

(** [String.prototype.split] with a separator of one code unit and no
    limit: the pieces between the occurrences of the separator, the empty
    string giving one empty piece. *)
Fixpoint split (sep : code_unit) (s : jsstring) : list jsstring :=
  match s with
  | [] => [[]]
  | c :: r =>
      if (c =? sep)%N then [] :: split sep r
      else match split sep r with
           | [] => [[c]]
           | piece :: pieces => (c :: piece) :: pieces
           end
  end.

(** [Array.prototype.join] with a separator of one code unit. *)
Fixpoint join (sep : code_unit) (l : list jsstring) : jsstring :=
  match l with
  | [] => []
  | [x] => x
  | x :: rest => x ++ sep :: join sep rest
  end.

(** [s.startsWith(p)], returning what follows the prefix. *)
Fixpoint strip_prefix (p s : jsstring) : option jsstring :=
  match p, s with
  | [], _ => Some s
  | _ :: _, [] => None
  | a :: p', b :: s' => if (a =? b)%N then strip_prefix p' s' else None
  end.

Definition all_space (s : jsstring) : Prop := Forall (fun c => is_space c = true) s.

(** No white space at either end. *)
Definition trimmed (s : jsstring) : Prop :=
  match s with
  | [] => True
  | c :: _ => is_space c = false /\ is_space (last s c) = false
  end.

End JsString.
Import JsString.

(* ================================================================== *)
(** * JavaScript numbers                                               *)
(* ================================================================== *)

Module Number.

(** The Number type is IEEE-754 binary64. *)
Definition prec : Z := 53.
Definition emax : Z := 1024.
Definition number := spec_float.

Definition NaN : number := S754_nan.
Definition Infinity : number := S754_infinity false.
Definition zero : number := S754_zero false.

Definition add : number -> number -> number := SFadd prec emax.
Definition div : number -> number -> number := SFdiv prec emax.

(** The Number nearest to an integer (ties to even). *)
Definition of_Z (z : Z) : number := binary_normalize prec emax z 0 false.

(** The Number nearest to the positive rational [p / q]. *)
Definition of_ratio (neg : bool) (p q : positive) : number :=
  let '(m, e, l) := SFdiv_core_binary prec emax (Zpos p) 0 (Zpos q) 0 in
  binary_round_aux prec emax neg m e l.

(** The Number nearest to the decimal [(-1)^neg * m * 10^e10]: the value
    of a decimal literal. *)
Definition of_decimal (neg : bool) (m : N) (e10 : Z) : number :=
  match m with
  | N0 => S754_zero neg
  | Npos p =>
      match e10 with
      | Zneg k => of_ratio neg p (10 ^ k)
      | _ => binary_round prec emax neg (p * Z.to_pos (10 ^ e10)) 0
      end
  end.

(** [ToBoolean] of a number: [NaN], [+0] and [-0] are falsy. *)
Definition truthy (x : number) : bool :=
  match x with
  | S754_nan | S754_zero _ => false
  | _ => true
  end.

(** Decimal digits of a natural number, most significant first. *)
Fixpoint digits_fuel (fuel : nat) (n : N) (acc : jsstring) : jsstring :=
  match fuel with
  | O => acc
  | S fuel' =>
      let acc' := (48 + n mod 10)%N :: acc in
      if (n <? 10)%N then acc' else digits_fuel fuel' (n / 10)%N acc'
  end.

Definition digits (n : N) : jsstring := digits_fuel (S (N.to_nat (N.log2 n))) n [].

(** The magnitude of a finite number times [10^f], rounded to the nearest
    integer, the larger one on a tie (step 10.a of
    [Number.prototype.toFixed]). *)
Definition scaled_round (f : nat) (m : positive) (e : Z) : N :=
  let t := (Zpos m * 10 ^ Z.of_nat f)%Z in
  match e with
  | Zneg k => Z.to_N ((2 * t + 2 ^ Zpos k) / (2 * 2 ^ Zpos k))
  | _ => Z.to_N (t * 2 ^ e)
  end.

(** [a.b]: the digits of [n] with a point before the last [f] of them,
    padded on the left with zeros to [f + 1] digits. *)
Definition fixed_digits (f : nat) (n : N) : jsstring :=
  let m := digits n in
  let m := repeat 48%N (S f - List.length m) ++ m in
  let k := List.length m in
  match f with
  | O => m
  | _ => firstn (k - f) m ++ 46%N :: skipn (k - f) m
  end.

(** Is the magnitude [m * 2^e] at least [10^21]? *)
Definition ge_1e21 (m : positive) (e : Z) : bool :=
  match e with
  | Zneg k => (10 ^ 21 * 2 ^ Zpos k <=? Zpos m)%Z
  | _ => (10 ^ 21 <=? Zpos m * 2 ^ e)%Z
  end.

Section ToStringLarge.
(** [Number::toString] on a finite number of magnitude at least [10^21],
    an integer [x]: the shortest digit string [s] of [k] digits with
    [s * 10^(n-k)] rounding to the number, the closest to it among those
    of that length, in exponential notation with the exponent [n - 1]. *)
Variable x : Z.

Definition decimal_length : nat := List.length (digits (Z.to_N x)).

Definition round_trips (s : Z) (p : nat) : bool :=
  match SFcompare (of_Z (s * 10 ^ Z.of_nat p)) (of_Z x) with
  | Some Eq => true
  | _ => false
  end.

(** The digit strings of length [k] next to [x], below and above, with
    their [n]: the one above may carry into the next power of ten, which
    is then written with the digit 1 and one more in the exponent. *)
Definition candidate (k : nat) : option (Z * nat) :=
  let p := (decimal_length - k)%nat in
  let lo := (x / 10 ^ Z.of_nat p)%Z in
  let hi := (lo + 1)%Z in
  let dlo := (x - lo * 10 ^ Z.of_nat p)%Z in
  let dhi := (hi * 10 ^ Z.of_nat p - x)%Z in
  let below := (lo, decimal_length) in
  let above := if (hi <? 10 ^ Z.of_nat k)%Z then (hi, decimal_length)
               else ((10 ^ Z.of_nat (k - 1))%Z, S decimal_length) in
  match round_trips lo p, round_trips hi p with
  | true, true => Some (if (dhi <? dlo)%Z then above else below)
  | true, false => Some below
  | false, true => Some above
  | false, false => None
  end.

Fixpoint shortest (tries : nat) (k : nat) : Z * nat :=
  match tries with
  | O => (x, decimal_length)
  | S tries' =>
      match candidate k with
      | Some found => found
      | None => shortest tries' (S k)
      end
  end.

Definition exponential : jsstring :=
  let '(s, n) := shortest decimal_length 1 in
  let ds := digits (Z.to_N s) in
  let mant := match ds with
              | [] => []
              | [d] => [d]
              | d :: more => d :: 46%N :: more
              end in
  mant ++ js "e+" ++ digits (N.of_nat (n - 1)).
End ToStringLarge.

(** The magnitude of a finite number as the fraction
    [numerator / denominator]. *)
Definition numerator (x : number) : Z :=
  match x with
  | S754_finite _ m (Zneg _) => Zpos m
  | S754_finite _ m e => Zpos m * 2 ^ e
  | _ => 0
  end.

Definition denominator (x : number) : Z :=
  match x with
  | S754_finite _ _ (Zneg k) => 2 ^ Zpos k
  | _ => 1
  end.

(** Finite, with a magnitude below [10^21]. *)
Definition below_1e21 (x : number) : bool :=
  match x with
  | S754_zero _ => true
  | S754_finite _ m e => negb (ge_1e21 m e)
  | _ => false
  end.

Definition minus_sign (x : number) : jsstring :=
  match x with
  | S754_finite true _ _ => js "-"
  | _ => []
  end.

(** [Number.prototype.toFixed(f)], for the fraction digits [0 <= f <= 100]
    it accepts. A number of magnitude [10^21] or more is an integer and is
    written by [Number::toString]. *)
Definition toFixed (f : nat) (x : number) : jsstring :=
  match x with
  | S754_nan => js "NaN"
  | S754_infinity false => js "Infinity"
  | S754_infinity true => js "-Infinity"
  | S754_zero _ => fixed_digits f 0
  | S754_finite neg m e =>
      (if neg then js "-" else []) ++
      (if ge_1e21 m e then exponential (Zpos m * 2 ^ e)
       else fixed_digits f (scaled_round f m e))
  end.

End Number.
Import Number.

(* ================================================================== *)
(** * Numeric literals and [ToNumber]                                  *)
(* ================================================================== *)

Module Literal.

Definition digit_val (base : N) (c : code_unit) : option N :=
  let v := if (48 <=? c)%N && (c <=? 57)%N then Some (c - 48)%N
           else if (97 <=? c)%N && (c <=? 102)%N then Some (c - 87)%N
           else if (65 <=? c)%N && (c <=? 70)%N then Some (c - 55)%N
           else None in
  match v with
  | Some d => if (d <? base)%N then Some d else None
  | None => None
  end.

(** The longest prefix of digits of the base, as digit values, and what
    follows it. *)
Fixpoint span_digits (base : N) (s : jsstring) : list N * jsstring :=
  match s with
  | [] => ([], [])
  | c :: r =>
      match digit_val base c with
      | Some d => let '(ds, rest) := span_digits base r in (d :: ds, rest)
      | None => ([], s)
      end
  end.

Definition digits_value (base : N) (ds : list N) : N :=
  fold_left (fun acc d => (base * acc + d)%N) ds 0%N.

(** An optional [ExponentPart]: its value and what follows; [None] when an
    exponent indicator is not followed by digits. *)
Definition scan_exponent (s : jsstring) : option (Z * jsstring) :=
  match s with
  | c :: r =>
      if (c =? 101)%N || (c =? 69)%N then
        let '(neg, r1) :=
          match r with
          | sg :: r' => if (sg =? 45)%N then (true, r')
                        else if (sg =? 43)%N then (false, r') else (false, r)
          | [] => (false, r)
          end in
        match span_digits 10 r1 with
        | ([], _) => None
        | (ds, rest) =>
            let v := Z.of_N (digits_value 10 ds) in
            Some (if neg then (- v)%Z else v, rest)
        end
      else Some (0%Z, s)
  | [] => Some (0%Z, s)
  end.

(** The Number denoted by integer digits, fraction digits and exponent. *)
Definition decimal_value (neg : bool) (ints fracs : list N) (e : Z) : number :=
  of_decimal neg (digits_value 10 (ints ++ fracs)) (e - Z.of_nat (List.length fracs)).

(** A JSON number at the head of the text: an optional minus sign, an
    integer part without a superfluous leading zero, an optional point
    followed by at least one digit, an optional exponent. *)
Definition scan_json_number (s : jsstring) : option (number * jsstring) :=
  let '(neg, s1) := match s with
                    | c :: r => if (c =? 45)%N then (true, r) else (false, s)
                    | [] => (false, s)
                    end in
  match span_digits 10 s1 with
  | ([], _) => None
  | ((d :: more) as ints, s2) =>
      if (d =? 0)%N && negb (Nat.eqb (List.length more) 0) then None
      else
        let frac := match s2 with
                    | c :: r =>
                        if (c =? 46)%N then
                          match span_digits 10 r with
                          | ([], _) => None
                          | (fs, s3) => Some (fs, s3)
                          end
                        else Some ([], s2)
                    | [] => Some ([], s2)
                    end in
        match frac with
        | None => None
        | Some (fracs, s3) =>
            match scan_exponent s3 with
            | None => None
            | Some (e, s4) => Some (decimal_value neg ints fracs e, s4)
            end
        end
  end.

(** [StrUnsignedDecimalLiteral] other than [Infinity], the whole text:
    digits with an optional point and exponent, at least one digit before
    the exponent. *)
Definition unsigned_decimal (neg : bool) (s : jsstring) : number :=
  let '(ints, s1) := span_digits 10 s in
  let '(fracs, s2) := match s1 with
                      | c :: r => if (c =? 46)%N then span_digits 10 r else ([], s1)
                      | [] => ([], s1)
                      end in
  match ints ++ fracs, scan_exponent s2 with
  | _ :: _, Some (e, []) => decimal_value neg ints fracs e
  | _, _ => NaN
  end.

(** [0x], [0o] and [0b] literals. *)
Definition non_decimal (s : jsstring) : option number :=
  match s with
  | z :: b :: r =>
      let base := if (b =? 120)%N || (b =? 88)%N then Some 16%N
                  else if (b =? 111)%N || (b =? 79)%N then Some 8%N
                  else if (b =? 98)%N || (b =? 66)%N then Some 2%N
                  else None in
      match (z =? 48)%N, base with
      | true, Some base =>
          match span_digits base r with
          | ((_ :: _) as ds, []) => Some (of_Z (Z.of_N (digits_value base ds)))
          | _ => Some NaN
          end
      | _, _ => None
      end
  | _ => None
  end.

(** [StringToNumber]. *)
Definition StringToNumber (s : jsstring) : number :=
  match trim s with
  | [] => zero
  | (c :: r) as t =>
      match non_decimal t with
      | Some n => n
      | None =>
          let '(neg, body) := if (c =? 45)%N then (true, r)
                              else if (c =? 43)%N then (false, r) else (false, t) in
          if JsString.eqb body (js "Infinity") then S754_infinity neg
          else unsigned_decimal neg body
      end
  end.

End Literal.

(** The values a note field can hold at run time. *)
Inductive primitive :=
| PUndefined
| PNull
| PBoolean (b : bool)
| PNumber (n : number)
| PString (s : jsstring).

(** [Number(v)]. *)
Definition ToNumber (v : primitive) : number :=
  match v with
  | PUndefined => NaN
  | PNull => zero
  | PBoolean true => of_Z 1
  | PBoolean false => zero
  | PNumber n => n
  | PString s => Literal.StringToNumber s
  end.

(** [x || 0] on a number. *)
Definition orZero (x : number) : number := if truthy x then x else zero.

(** [Number(v) || 0] *)
Definition coerced (v : primitive) : number := orZero (ToNumber v).

(* ================================================================== *)
(** * [JSON.parse]                                                     *)
(* ================================================================== *)

(** The values [JSON.parse] builds. An object is the list of its own
    properties in enumeration order. *)
#[warnings="-register-all"]
Inductive json :=
| JNull
| JBool (b : bool)
| JNumber (n : number)
| JString (s : jsstring)
| JArray (elements : list json)
| JObject (properties : list (jsstring * json)).

Module JSON.

Inductive token :=
| TLBracket | TRBracket | TLBrace | TRBrace | TComma | TColon
| TString (s : jsstring)
| TNumber (n : number)
| TTrue | TFalse | TNull.

(** JSON white space: tab, line feed, carriage return, space. *)
Definition is_json_space (c : code_unit) : bool :=
  ((c =? 9) || (c =? 10) || (c =? 13) || (c =? 32))%N.

Fixpoint skip_space (s : jsstring) : jsstring :=
  match s with
  | [] => []
  | c :: r => if is_json_space c then skip_space r else s
  end.

Definition hex4 (a b c d : code_unit) : option code_unit :=
  match Literal.digit_val 16 a, Literal.digit_val 16 b,
        Literal.digit_val 16 c, Literal.digit_val 16 d with
  | Some x, Some y, Some z, Some w => Some (((x * 16 + y) * 16 + z) * 16 + w)%N
  | _, _, _, _ => None
  end.

(** The code unit of a single-character escape. *)
Definition escape (c : code_unit) : option code_unit :=
  if (c =? 34)%N || (c =? 92)%N || (c =? 47)%N then Some c
  else if (c =? 98)%N then Some 8%N
  else if (c =? 102)%N then Some 12%N
  else if (c =? 110)%N then Some 10%N
  else if (c =? 114)%N then Some 13%N
  else if (c =? 116)%N then Some 9%N
  else None.

(** The body of a string literal after its opening quote, up to the
    closing quote: the string denoted and what follows. *)
Fixpoint scan_string (s : jsstring) : option (jsstring * jsstring) :=
  match s with
  | [] => None
  | c :: r =>
      if (c =? 34)%N then Some ([], r)
      else if (c =? 92)%N then
        match r with
        | e :: r1 =>
            if (e =? 117)%N then
              match r1 with
              | h1 :: h2 :: h3 :: h4 :: r2 =>
                  match hex4 h1 h2 h3 h4, scan_string r2 with
                  | Some u, Some (str, rest) => Some (u :: str, rest)
                  | _, _ => None
                  end
              | _ => None
              end
            else
              match escape e, scan_string r1 with
              | Some u, Some (str, rest) => Some (u :: str, rest)
              | _, _ => None
              end
        | [] => None
        end
      else if (c <? 32)%N then None
      else
        match scan_string r with
        | Some (str, rest) => Some (c :: str, rest)
        | None => None
        end
  end.

Inductive lexed :=
| LexError
| LexEnd
| LexToken (t : token) (rest : jsstring).

Definition keyword (word : string) (t : token) (s : jsstring) : lexed :=
  match strip_prefix (js word) s with
  | Some rest => LexToken t rest
  | None => LexError
  end.

(** The next token of the text. *)
Definition next_token (s : jsstring) : lexed :=
  match skip_space s with
  | [] => LexEnd
  | c :: r =>
      if (c =? 91)%N then LexToken TLBracket r
      else if (c =? 93)%N then LexToken TRBracket r
      else if (c =? 123)%N then LexToken TLBrace r
      else if (c =? 125)%N then LexToken TRBrace r
      else if (c =? 44)%N then LexToken TComma r
      else if (c =? 58)%N then LexToken TColon r
      else if (c =? 34)%N then
        match scan_string r with
        | Some (str, rest) => LexToken (TString str) rest
        | None => LexError
        end
      else if (c =? 116)%N then keyword "true" TTrue (c :: r)
      else if (c =? 102)%N then keyword "false" TFalse (c :: r)
      else if (c =? 110)%N then keyword "null" TNull (c :: r)
      else
        match Literal.scan_json_number (c :: r) with
        | Some (n, rest) => LexToken (TNumber n) rest
        | None => LexError
        end
  end.

(** An array index: the canonical decimal string of an integer below
    [2^32 - 1]. Such keys are enumerated first, in ascending order. *)
Definition array_index (k : jsstring) : option N :=
  match Literal.span_digits 10 k with
  | ((d :: more) as ds, []) =>
      let v := Literal.digits_value 10 ds in
      if ((d =? 0)%N && negb (Nat.eqb (List.length more) 0))
         || (10 <? List.length ds)%nat
         || (4294967295 <=? v)%N
      then None else Some v
  | _ => None
  end.

Definition has_key (k : jsstring) (props : list (jsstring * json)) : bool :=
  existsb (fun kv => JsString.eqb (fst kv) k) props.

Fixpoint replace_value (k : jsstring) (v : json) (props : list (jsstring * json)) :=
  match props with
  | [] => []
  | (k', v') :: r =>
      if JsString.eqb k' k then (k', v) :: r else (k', v') :: replace_value k v r
  end.

(** A new index key goes before the first key that is a larger index or
    not an index; a new string key goes last. *)
Fixpoint insert_new (k : jsstring) (v : json) (props : list (jsstring * json)) :=
  match props with
  | [] => [(k, v)]
  | (k', v') :: r =>
      match array_index k, array_index k' with
      | Some i, Some i' =>
          if (i <? i')%N then (k, v) :: props else (k', v') :: insert_new k v r
      | Some _, None => (k, v) :: props
      | None, _ => (k', v') :: insert_new k v r
      end
  end.

(** [CreateDataProperty]: a repeated key keeps its place and takes the new
    value. *)
Definition define_property (k : jsstring) (v : json) (props : list (jsstring * json)) :=
  if has_key k props then replace_value k v props else insert_new k v props.

(** Containers under construction. *)
Inductive frame :=
| InArray (done_rev : list json)
| InObject (props : list (jsstring * json)) (key : option jsstring).

(** What the grammar allows next. *)
Inductive expect :=
| Value
| ValueOrClose
| Key
| KeyOrClose
| Colon
| CommaOrClose
| End (v : json).

(** A finished value goes to the enclosing container, or is the result. *)
Definition deliver (v : json) (stack : list frame) : option (expect * list frame) :=
  match stack with
  | [] => Some (End v, [])
  | InArray done :: st => Some (CommaOrClose, InArray (v :: done) :: st)
  | InObject props (Some k) :: st =>
      Some (CommaOrClose, InObject (define_property k v props) None :: st)
  | InObject _ None :: _ => None
  end.

Definition step (e : expect) (stack : list frame) (t : token)
  : option (expect * list frame) :=
  match e, t, stack with
  | (Value | ValueOrClose), TNull, _ => deliver JNull stack
  | (Value | ValueOrClose), TTrue, _ => deliver (JBool true) stack
  | (Value | ValueOrClose), TFalse, _ => deliver (JBool false) stack
  | (Value | ValueOrClose), TNumber n, _ => deliver (JNumber n) stack
  | (Value | ValueOrClose), TString s, _ => deliver (JString s) stack
  | (Value | ValueOrClose), TLBracket, _ => Some (ValueOrClose, InArray [] :: stack)
  | (Value | ValueOrClose), TLBrace, _ => Some (KeyOrClose, InObject [] None :: stack)
  | ValueOrClose, TRBracket, InArray [] :: st => deliver (JArray []) st
  | (Key | KeyOrClose), TString k, InObject props None :: st =>
      Some (Colon, InObject props (Some k) :: st)
  | KeyOrClose, TRBrace, InObject props None :: st => deliver (JObject props) st
  | Colon, TColon, _ => Some (Value, stack)
  | CommaOrClose, TComma, InArray _ :: _ => Some (Value, stack)
  | CommaOrClose, TComma, InObject _ None :: _ => Some (Key, stack)
  | CommaOrClose, TRBracket, InArray done :: st => deliver (JArray (rev done)) st
  | CommaOrClose, TRBrace, InObject props None :: st => deliver (JObject props) st
  | _, _, _ => None
  end.

(** The parser: one token at a time. Every token takes at least one code
    unit, so fuel above the length of the text is never used up
    ([run_fuel] below). *)
Fixpoint run (fuel : nat) (e : expect) (stack : list frame) (s : jsstring)
  : option json :=
  match fuel with
  | O => None
  | S fuel' =>
      match next_token s with
      | LexError => None
      | LexEnd => match e with End v => Some v | _ => None end
      | LexToken t rest =>
          match step e stack t with
          | Some (e', stack') => run fuel' e' stack' rest
          | None => None
          end
      end
  end.

(** [JSON.parse(text)]: the value, or [None] for a [SyntaxError]. *)
Definition parse (text : jsstring) : option json :=
  run (S (List.length text)) Value [] text.

End JSON.

(* ================================================================== *)
(** * The name-list parser of [extractStudentNamesFromImage]           *)
(* ================================================================== *)

(** [text.split('\n').map(name => name.trim()).filter(name => name.length > 0)] *)
Definition parseNames (text : jsstring) : list jsstring :=
  filter (fun name => 0 <? List.length name)
         (map (fun name => trim name) (split LF text)).

(** The text handed to the pipeline: [response.text || ""]. *)
Definition textOrEmpty (t : option jsstring) : jsstring :=
  match t with
  | Some ((_ :: _) as s) => s
  | _ => []
  end.

(* ================================================================== *)
(** * Effects of the helper module                                     *)
(* ================================================================== *)

(** What can be thrown. *)
Inductive exn :=
| Error (message : jsstring)      (* [new Error(message)] *)
| SyntaxError                     (* thrown by [JSON.parse] *)
| Foreign (what : jsstring).      (* thrown or rejected by a collaborator *)

(** The request handed to [ai.models.generateContent]. *)
Inductive contents :=
| Prompt (text : jsstring)
| ImageAndPrompt (mimeType : jsstring) (data : option jsstring) (text : jsstring).

Record request := {
  model : jsstring;
  req_contents : contents;
  grade_schema : bool   (* the JSON response schema of the grade sheet *)
}.

(** Observable effects, in the order they happen. *)
Inductive event :=
| ConsoleWarn (message : jsstring)
| ConsoleError (message : jsstring) (detail : option exn)
| ReadAsDataURL                   (* the file read, awaited *)
| GenerateContent (r : request).  (* the network request, awaited *)

Inductive outcome (A : Type) :=
| Returned (a : A)
| Thrown (e : exn).
Arguments Returned {A} a.
Arguments Thrown {A} e.

(** A computation: its outcome and the trace of its effects. *)
Definition M (A : Type) : Type := outcome A * list event.

Definition ret {A} (a : A) : M A := (Returned a, []).
Definition throw {A} (e : exn) : M A := (Thrown e, []).
Definition emit (ev : event) : M unit := (Returned tt, [ev]).

Definition bind {A B} (m : M A) (k : A -> M B) : M B :=
  match m with
  | (Returned a, t) => let '(o, t') := k a in (o, t ++ t')
  | (Thrown e, t) => (Thrown e, t)
  end.

(** [try { m } catch (e) { handler e }] *)
Definition try_catch {A} (m : M A) (handler : exn -> M A) : M A :=
  match m with
  | (Returned a, t) => (Returned a, t)
  | (Thrown e, t) => let '(o, t') := handler e in (o, t ++ t')
  end.

Declare Scope js_scope.
Delimit Scope js_scope with js.
Notation "x <- m ;; k" := (bind m (fun x => k))
  (at level 61, m at next level, right associativity) : js_scope.
Notation "m ;;; k" := (bind m (fun _ => k))
  (at level 61, right associativity) : js_scope.
Local Open Scope js_scope.

Definition result {A} (m : M A) : outcome A := fst m.
Definition trace {A} (m : M A) : list event := snd m.

Definition is_network (ev : event) : bool :=
  match ev with GenerateContent _ => true | _ => false end.

(** The points at which an [async] function suspends. *)
Definition is_await (ev : event) : bool :=
  match ev with GenerateContent _ | ReadAsDataURL => true | _ => false end.

(* ================================================================== *)
(** * The collaborators                                                *)
(* ================================================================== *)

(** What the module finds when it looks for [process.env.API_KEY]. *)
Inductive process_env :=
| ProcessUndefined                     (* [typeof process === 'undefined'] *)
| EnvFalsy                             (* [process.env] is falsy *)
| EnvThrows                            (* the access throws *)
| Env (API_KEY : option jsstring).     (* the variable, if set *)

(** The answer of the provider to one request. *)
Inductive generation :=
| Rejects (e : exn)                    (* transport or provider error *)
| Resolves (text : option jsstring).   (* [response.text] *)

Record gateway := {
  process : process_env;
  construct : jsstring -> option exn;  (* does [new GoogleGenAI] throw? *)
  generateContent : request -> generation
}.

(** An uploaded file: its MIME type and what reading it as a data URL
    gives. *)
Record File := {
  file_type : jsstring;
  data_url : option jsstring   (* [reader.result], [None] on a read error *)
}.

Record client := { apiKey : jsstring }.

(* ================================================================== *)
(** * The helper module                                                *)
(* ================================================================== *)

Section Helper.

Variable g : gateway.

(** [getAIClient] *)
Definition getAIClient : M (option client) :=
  key <- try_catch
           (match process g with
            | ProcessUndefined | EnvFalsy => ret []
            | EnvThrows => throw (Foreign (js "process.env"))
            | Env k => ret (textOrEmpty k)
            end)
           (fun _ => emit (ConsoleWarn (js "Environment variable access failed.")) ;;;
                     ret []) ;;
  match key with
  | [] =>
      emit (ConsoleError
              (js "Gemini API Key is missing. Please check your environment variables.")
              None) ;;;
      ret None
  | _ =>
      try_catch
        (match construct g key with
         | None => ret (Some {| apiKey := key |})
         | Some e => throw e
         end)
        (fun error =>
           emit (ConsoleError (js "Failed to initialize GoogleGenAI:") (Some error)) ;;;
           ret None)
  end.

(** [fileToGenerativePart]: the part of the data URL after the first
    comma, [undefined] when there is none; a failed read rejects. *)
Definition fileToGenerativePart (file : File) : M (option jsstring) :=
  emit ReadAsDataURL ;;;
  match data_url file with
  | Some url => ret (nth_error (split 44%N url) 1)
  | None => throw (Foreign (js "FileReader error"))
  end.

(** [await ai.models.generateContent(r)], giving [response.text]. *)
Definition callModel (r : request) : M (option jsstring) :=
  emit (GenerateContent r) ;;;
  match generateContent g r with
  | Resolves text => ret text
  | Rejects e => throw e
  end.

Inductive content_type := description | quiz.

Definition sessionPrompt (topic : jsstring) (type : content_type) : jsstring :=
  match type with
  | description =>
      js "Create a short, engaging description for a physical education session about "
      ++ DQUOTE :: topic ++ DQUOTE ::
      js ". Include 3 key learning objectives. Keep it under 150 words."
  | quiz =>
      js "Create 3 multiple choice exam questions for a PE class session about "
      ++ DQUOTE :: topic ++ DQUOTE ::
      js ". Include the correct answer. Format as simple text."
  end.

Definition flash : jsstring := js "gemini-2.5-flash".

Definition sessionRequest (topic : jsstring) (type : content_type) : request :=
  {| model := flash; req_contents := Prompt (sessionPrompt topic type);
     grade_schema := false |}.

(** [generateSessionContent] *)
Definition generateSessionContent (topic : jsstring) (type : content_type)
  : M jsstring :=
  ai <- getAIClient ;;
  match ai with
  | None => ret (js "AI Service Unavailable (Missing or Invalid API Key)")
  | Some _ =>
      try_catch
        (text <- callModel (sessionRequest topic type) ;;
         ret (match text with
              | Some ((_ :: _) as t) => t
              | _ => js "No content generated."
              end))
        (fun error =>
           emit (ConsoleError (js "Gemini API Error:") (Some error)) ;;;
           ret (js "Failed to generate content. Please check your API key settings."))
  end.

Definition namesPrompt : jsstring :=
  js "Extract the list of student names from this image. Return ONLY the names, one per line. Do not include numbers, grades, dates, or headers. Just the First and Last names.".

Definition namesRequest (imageFile : File) (base64Data : option jsstring) : request :=
  {| model := flash;
     req_contents := ImageAndPrompt (file_type imageFile) base64Data namesPrompt;
     grade_schema := false |}.

(** [extractStudentNamesFromImage] *)
Definition extractStudentNamesFromImage (imageFile : File) : M (list jsstring) :=
  ai <- getAIClient ;;
  match ai with
  | None => throw (Error (js "AI Service Unavailable. Check API Key."))
  | Some _ =>
      base64Data <- fileToGenerativePart imageFile ;;
      try_catch
        (response <- callModel (namesRequest imageFile base64Data) ;;
         let text := textOrEmpty response in
         ret (parseNames text))
        (fun error =>
           emit (ConsoleError (js "Gemini Vision Error:") (Some error)) ;;;
           throw (Error
                    (js "Failed to extract names from image. Please check your API key.")))
  end.

Definition gradesPrompt : jsstring :=
  LF :: js "    Analyze this image of a grade sheet. " ++
  LF :: js "    Extract the student names and their scores for Term 1, Term 2, and Term 3." ++
  LF :: js "    If a note is missing, use 0." ++
  LF :: js "    Extract as accurately as possible." ++
  LF :: js "  ".

Definition fence : jsstring := [BACKTICK; BACKTICK; BACKTICK].

(** [text.replace(/^```json\s*/, '')]: the marker at the very start and
    the white space after it. *)
Definition stripOpeningFence (text : jsstring) : jsstring :=
  match strip_prefix (fence ++ js "json") text with
  | Some rest => trimStart rest
  | None => text
  end.

(** Does [\s*```$] match here: white space, the marker, the end? *)
Definition closingFenceHere (s : jsstring) : bool :=
  JsString.eqb (trimStart s) fence.

(** [text.replace(/\s*```$/, '')]: the leftmost match is removed. *)
Fixpoint stripClosingFence (text : jsstring) : jsstring :=
  if closingFenceHere text then []
  else match text with
       | [] => []
       | c :: r => c :: stripClosingFence r
       end.

Definition stripFences (text : jsstring) : jsstring :=
  stripClosingFence (stripOpeningFence text).

(** [JSON.parse(text)] as a computation. *)
Definition JSON_parse (text : jsstring) : M json :=
  match JSON.parse text with
  | Some v => ret v
  | None => throw SyntaxError
  end.

Definition gradesRequest (imageFile : File) (base64Data : option jsstring) : request :=
  {| model := flash;
     req_contents := ImageAndPrompt (file_type imageFile) base64Data gradesPrompt;
     grade_schema := true |}.

(** [extractGradesFromImage] *)
Definition extractGradesFromImage (imageFile : File) : M json :=
  ai <- getAIClient ;;
  match ai with
  | None => throw (Error (js "AI Service Unavailable"))
  | Some _ =>
      base64Data <- fileToGenerativePart imageFile ;;
      try_catch
        (response <- callModel (gradesRequest imageFile base64Data) ;;
         match response with
         | Some ((_ :: _) as text) => JSON_parse (stripFences text)
         | _ => ret (JArray [])
         end)
        (fun error =>
           emit (ConsoleError (js "Gemini Grade Extraction Error:") (Some error)) ;;;
           throw (Error (js "Failed to extract grades from image.")))
  end.

End Helper.

(** The key [getAIClient] ends up with: empty when none is configured. *)
Definition credential (g : gateway) : jsstring :=
  match process g with
  | Env k => textOrEmpty k
  | _ => []
  end.

(** A key is configured and the SDK accepts it. *)
Definition ready (g : gateway) : Prop :=
  credential g <> [] /\ construct g (credential g) = None.

(** [base64Data] of a file that reads as [url]. *)
Definition base64Of (url : jsstring) : option jsstring := nth_error (split 44%N url) 1.

(** Nothing in the trace suspends the caller; nothing in it goes to the
    network. *)
Definition no_await (t : list event) : Prop := existsb is_await t = false.
Definition no_network (t : list event) : Prop := existsb is_network t = false.

(** What the console and the caller get on the failure paths. *)
Definition missingKeyLog : event :=
  ConsoleError (js "Gemini API Key is missing. Please check your environment variables.")
               None.

Definition gradesFailure : exn := Error (js "Failed to extract grades from image.").

Definition gradesErrorLog (cause : exn) : event :=
  ConsoleError (js "Gemini Grade Extraction Error:") (Some cause).

(* ================================================================== *)
(** * The student-profile page                                         *)
(* ================================================================== *)

(** Modelled from the spec: the [Student] and [ClassGroup] declarations of
    the [types] module, which the page imports. A student has an identifier,
    a name, an optional class reference and three scores; a score is typed as
    a number, and the page coerces whatever it finds there with [Number]. *)
Record Student := {
  student_id : jsstring;
  name : jsstring;
  classId : option jsstring;
  note1 : primitive;
  note2 : primitive;
  note3 : primitive
}.

Record ClassGroup := {
  class_id : jsstring;
  class_name : jsstring
}.

(** How an awaited call of the store ends: its promise is fulfilled with a
    value, or rejected. *)
Inductive settled (A : Type) :=
| Fulfilled (a : A)
| Rejected (reason : exn).
Arguments Fulfilled {A} a.
Arguments Rejected {A} reason.

(** What the page does besides rendering. The page has no [try], and React
    drops the promise of a handler: a rejected await ends the handler there
    as an unhandled rejection. *)
Inductive ui_event :=
| PreventDefault
| Alert (message : jsstring)
| UnhandledRejection (reason : exn).

(** The state hooks of the component. *)
Record state := {
  student : option Student;
  classGroup : option ClassGroup;
  isLoading : bool;
  isSaving : bool
}.

(** The three screens of the component. *)
Inductive view :=
| Spinner
| NotFound
| Profile (initial : jsstring) (heading : jsstring) (classLabel : jsstring)
          (gpa : jsstring).

Inductive term := term1 | term2 | term3.

Section StudentProfile.

(** The store service the page imports: a lookup that finds nothing and a
    save that fails give [null]; the promise of any of the three may also be
    rejected. *)
Variable getStudent : jsstring -> settled (option Student).
Variable getClass : jsstring -> settled (option ClassGroup).
Variable saveStudent : Student -> settled (option Student).

(** The state at mount. *)
Definition mounted : state :=
  {| student := None; classGroup := None; isLoading := true; isSaving := false |}.

Definition setStudent (v : option Student) (st : state) : state :=
  {| student := v; classGroup := classGroup st;
     isLoading := isLoading st; isSaving := isSaving st |}.

Definition setClassGroup (v : option ClassGroup) (st : state) : state :=
  {| student := student st; classGroup := v;
     isLoading := isLoading st; isSaving := isSaving st |}.

Definition setIsLoading (v : bool) (st : state) : state :=
  {| student := student st; classGroup := classGroup st;
     isLoading := v; isSaving := isSaving st |}.

Definition setIsSaving (v : bool) (st : state) : state :=
  {| student := student st; classGroup := classGroup st;
     isLoading := isLoading st; isSaving := v |}.

(** [fetchData], run by the effect on the route parameter [id]: the state
    it leaves and what else it does. *)
Definition fetchData (id : option jsstring) (st : state) : state * list ui_event :=
  match id with
  | Some ((_ :: _) as id) =>
      let st := setIsLoading true st in
      match getStudent id with
      | Rejected e => (st, [UnhandledRejection e])
      | Fulfilled studentData =>
          let st := setStudent studentData st in
          match studentData with
          | Some s =>
              match classId s with
              | Some ((_ :: _) as c) =>
                  match getClass c with
                  | Rejected e => (st, [UnhandledRejection e])
                  | Fulfilled classData =>
                      (setIsLoading false (setClassGroup classData st), [])
                  end
              | _ => (setIsLoading false st, [])
              end
          | None => (setIsLoading false st, [])
          end
      end
  | _ => (st, [])
  end.

(** [handleSave] *)
Definition handleSave (st : state) : state * list ui_event :=
  match student st with
  | None => (st, [PreventDefault])
  | Some s =>
      let st := setIsSaving true st in
      match saveStudent s with
      | Rejected e => (st, [PreventDefault; UnhandledRejection e])
      | Fulfilled (Some updated) =>
          (setIsSaving false (setStudent (Some updated) st),
           [PreventDefault; Alert (js "Changes saved successfully!")])
      | Fulfilled None =>
          (setIsSaving false st,
           [PreventDefault; Alert (js "Failed to save changes.")])
      end
  end.

(** The average before it is formatted:
    [((Number(n1) || 0) + (Number(n2) || 0) + (Number(n3) || 0)) / 3]. *)
Definition average (s : Student) : number :=
  let sum := add (add (coerced (note1 s)) (coerced (note2 s))) (coerced (note3 s)) in
  div sum (of_Z 3).

(** [calculateAverage] *)
Definition calculateAverage (s : Student) : jsstring :=
  toFixed 2 (average s).

(** The name field: [setStudent({...student, name: e.target.value})]. *)
Definition editName (value : jsstring) (st : state) : state :=
  match student st with
  | Some s =>
      setStudent (Some {| student_id := student_id s; name := value;
                          classId := classId s; note1 := note1 s;
                          note2 := note2 s; note3 := note3 s |}) st
  | None => st
  end.

(** A score field: [setStudent({...student, [term]: Number(e.target.value)})]. *)
Definition editNote (t : term) (value : jsstring) (st : state) : state :=
  match student st with
  | Some s =>
      let v := PNumber (Literal.StringToNumber value) in
      setStudent (Some {| student_id := student_id s; name := name s;
                          classId := classId s;
                          note1 := match t with term1 => v | _ => note1 s end;
                          note2 := match t with term2 => v | _ => note2 s end;
                          note3 := match t with term3 => v | _ => note3 s end |}) st
  | None => st
  end.

(** [classGroup?.name || 'Unassigned Class'] *)
Definition classDisplay (st : state) : jsstring :=
  match classGroup st with
  | Some {| class_name := (_ :: _) as n |} => n
  | _ => js "Unassigned Class"
  end.

(** What the component renders. *)
Definition render (st : state) : view :=
  if isLoading st then Spinner
  else match student st with
       | None => NotFound
       | Some s => Profile (firstn 1 (name s)) (name s) (classDisplay st)
                           (calculateAverage s)
       end.

End StudentProfile.

(** The class of a student does not resolve: there is no class reference, or
    the store has no class for it. *)
Definition unresolved (getClass : jsstring -> settled (option ClassGroup))
    (s : Student) : Prop :=
  match classId s with
  | Some ((_ :: _) as c) => getClass c = Fulfilled None
  | _ => True
  end.

Definition hasClassId (s : Student) : Prop :=
  match classId s with
  | Some (_ :: _) => True
  | _ => False
  end.

(* ================================================================== *)
(** * Sample inputs                                                    *)
(* ================================================================== *)

(** A literal in which an apostrophe stands for a double quote. *)
Definition jsq (s : string) : jsstring :=
  map (fun c => if (c =? 39)%N then DQUOTE else c) (js s).

Definition gradeSheetJson : jsstring :=
  jsq "[{'name':'A','note1':1,'note2':2,'note3':3}]".



Definition rosterText : jsstring :=
  js "Alice Smith" ++ LF :: LF :: js "Bob Jones" ++ LF :: js "  " ++ [LF].

Definition twiceText : jsstring := js "Ada" ++ LF :: js " Ada ".

(** A gateway with a credential whose provider answers every request the
    same way. *)
Definition liveGateway (answer : generation) : gateway :=
  {| process := Env (Some (js "secret"));
     construct := fun _ => None;
     generateContent := fun _ => answer |}.

(** A gateway without a credential whose provider would answer. *)
Definition keylessGateway : gateway :=
  {| process := Env None;
     construct := fun _ => None;
     generateContent := fun _ => Resolves (Some (js "unreachable")) |}.

Definition photoUrl : jsstring := js "data:image/png;base64,iVBORw0KGgo=".

Definition photo : File :=
  {| file_type := js "image/png"; data_url := Some photoUrl |}.

(** A store that finds one student and no class, and refuses to save. *)
Definition lonelyStore_getStudent (s : Student) (id : jsstring)
  : settled (option Student) :=
  Fulfilled (if JsString.eqb id (student_id s) then Some s else None).
Definition emptyStore_getClass (_ : jsstring) : settled (option ClassGroup) :=
  Fulfilled None.
Definition brokenStore_saveStudent (_ : Student) : settled (option Student) :=
  Fulfilled None.

(** A store that cannot be reached: the promise of a save is rejected. *)
Definition downStore_saveStudent (_ : Student) : settled (option Student) :=
  Rejected (Foreign (js "network down")).
Definition downStore_getStudent (_ : jsstring) : settled (option Student) :=
  Rejected (Foreign (js "network down")).

Definition pupil (a b c : primitive) : Student :=
  {| student_id := js "s1"; name := js "Ada"; classId := Some (js "c9");
     note1 := a; note2 := b; note3 := c |}.

Definition ada : Student :=
  pupil (PNumber (of_Z 12)) (PNumber (of_Z 15)) (PNumber (of_Z 18)).

(** A student whose first note is [3e21]. *)
Definition outlier : Student :=
  pupil (PNumber (of_decimal false 3 21)) (PNumber zero) (PNumber zero).

(** A student with whole-number notes. *)
Definition graded (a b c : nat) : Student :=
  pupil (PNumber (of_Z (Z.of_nat a))) (PNumber (of_Z (Z.of_nat b)))
        (PNumber (of_Z (Z.of_nat c))).

(** A third of [total], in hundredths, rounded to the nearest one and up on
    a tie. *)
Definition exactHundredths (total : nat) : N := ((200 * N.of_nat total + 3) / 6)%N.

(** The whole numbers up to [n]. *)
Definition upTo (n : nat) : list nat := seq 0 (S n).

Definition number_eq_dec (x y : number) : {x = y} + {x <> y}.
Proof.
  decide equality; try apply Bool.bool_dec; try apply Z.eq_dec; apply Pos.eq_dec.
Defined.

(** Is the binary64 sum of two whole numbers their sum? *)
Definition addsExactly (a b : nat) : bool :=
  if number_eq_dec (add (of_Z (Z.of_nat a)) (of_Z (Z.of_nat b)))
                   (of_Z (Z.of_nat (a + b)))
  then true else false.

(** Is a whole number its own coercion? *)
Definition coercesToItself (a : nat) : bool :=
  if number_eq_dec (coerced (PNumber (of_Z (Z.of_nat a)))) (of_Z (Z.of_nat a))
  then true else false.

(** Is the binary64 third of a whole number written as its exact third,
    rounded? *)
Definition thirdWrittenExactly (total : nat) : bool :=
  JsString.eqb (toFixed 2 (div (of_Z (Z.of_nat total)) (of_Z 3)))
               (fixed_digits 2 (exactHundredths total)).

(** The page showing [ada], loaded, with nothing being saved. *)
Definition editing : state :=
  {| student := Some ada; classGroup := None; isLoading := false; isSaving := false |}.

(* ================================================================== *)
(** * Vocabulary of the further properties                             *)
(* ================================================================== *)

Definition COMMA : code_unit := 44%N.
Definition CR : code_unit := 13%N.

Definition namesFailure : exn :=
  Error (js "Failed to extract names from image. Please check your API key.").

Definition namesErrorLog (cause : exn) : event :=
  ConsoleError (js "Gemini Vision Error:") (Some cause).

Definition initErrorLog (cause : exn) : event :=
  ConsoleError (js "Failed to initialize GoogleGenAI:") (Some cause).

Definition sessionErrorLog (cause : exn) : event :=
  ConsoleError (js "Gemini API Error:") (Some cause).

(** What a failed file read rejects with. *)
Definition readerError : exn := Foreign (js "FileReader error").

(** The number of requests sent to the provider. *)
Definition requests (t : list event) : nat := List.length (filter is_network t).

(** A gateway whose key the SDK refuses. *)
Definition refusedGateway : gateway :=
  {| process := Env (Some (js "expired"));
     construct := fun _ => Some (Foreign (js "invalid key"));
     generateContent := fun _ => Resolves (Some (js "unreachable")) |}.

(** A file that cannot be read. *)
Definition unreadable : File := {| file_type := js "image/png"; data_url := None |}.

(** A student with one score replaced, and with the name replaced. *)
Definition withNote (t : term) (v : primitive) (s : Student) : Student :=
  {| student_id := student_id s; name := name s; classId := classId s;
     note1 := match t with term1 => v | _ => note1 s end;
     note2 := match t with term2 => v | _ => note2 s end;
     note3 := match t with term3 => v | _ => note3 s end |}.

Definition withName (v : jsstring) (s : Student) : Student :=
  {| student_id := student_id s; name := v; classId := classId s;
     note1 := note1 s; note2 := note2 s; note3 := note3 s |}.

Definition noteOf (t : term) (s : Student) : primitive :=
  match t with term1 => note1 s | term2 => note2 s | term3 => note3 s end.

(** A student without a class reference, and a class. *)
Definition newcomer : Student :=
  {| student_id := js "s2"; name := js "Bo"; classId := None;
     note1 := PUndefined; note2 := PNull; note3 := PString (js "n/a") |}.

Definition class5A : ClassGroup := {| class_id := js "c9"; class_name := js "5A" |}.

(** The page after it showed [ada] in the class [class5A]. *)
Definition showingAda : state :=
  {| student := Some ada; classGroup := Some class5A;
     isLoading := false; isSaving := false |}.

(** A store with the students [ada] and [newcomer] and the class
    [class5A]. *)
Definition school_getStudent (id : jsstring) : settled (option Student) :=
  Fulfilled (if JsString.eqb id (js "s1") then Some ada
             else if JsString.eqb id (js "s2") then Some newcomer
             else None).

Definition school_getClass (c : jsstring) : settled (option ClassGroup) :=
  Fulfilled (if JsString.eqb c (js "c9") then Some class5A else None).

(** Scores whose binary64 sum depends on the order of the additions. *)
Definition lopsided : Student :=
  pupil (PNumber (of_decimal false 1 16)) (PNumber (of_decimal true 1 16))
        (PNumber (of_Z 1)).

Definition exchanged13 (s : Student) : Student :=
  {| student_id := student_id s; name := name s; classId := classId s;
     note1 := note3 s; note2 := note2 s; note3 := note1 s |}.

Definition exchanged12 (s : Student) : Student :=
  {| student_id := student_id s; name := name s; classId := classId s;
     note1 := note2 s; note2 := note1 s; note3 := note3 s |}.

(* ================================================================== *)
(** * The average as the claim words it                                *)
(* ================================================================== *)

(** A note as a number, 0 when it is missing or not numeric, that is when
    [Number] makes [NaN] of it. *)
Definition claimedNote (v : primitive) : number :=
  match ToNumber v with
  | S754_nan => zero
  | x => x
  end.

(** [(note1 + note2 + note3) / 3] on those numbers, in binary64. *)
Definition claimedAverage (s : Student) : number :=
  div (add (add (claimedNote (note1 s)) (claimedNote (note2 s))) (claimedNote (note3 s)))
      (of_Z 3).

(** The same number, or two zeros that differ at most in their sign. *)
Definition alike (x y : number) : Prop :=
  x = y \/ exists a b, x = S754_zero a /\ y = S754_zero b.

(** A student with a missing second note. *)
Definition absentee : Student :=
  {| student_id := js "s3"; name := js "Cy"; classId := None;
     note1 := PNumber (of_Z 12); note2 := PUndefined; note3 := PNumber (of_Z 18) |}.

(* ------------------------------------------------------------------ *)
(** ** Facts about strings                                             *)
(* ------------------------------------------------------------------ *)

Lemma split_nonempty sep s : split sep s <> [].
Proof.
  destruct s as [|c r]; simpl; [discriminate|].
  destruct (c =? sep)%N; [discriminate|].
  destruct (split sep r); discriminate.
Qed.

Lemma join_cons sep x y rest :
  join sep (x :: y :: rest) = x ++ sep :: join sep (y :: rest).
Proof. reflexivity. Qed.

Lemma join_split sep s : join sep (split sep s) = s.
Proof.
  induction s as [|c r IH]; [reflexivity|].
  pose proof (split_nonempty sep r) as Hn.
  cbn [split]. destruct (split sep r) as [|p ps]; [contradiction|].
  destruct (N.eqb_spec c sep) as [->|Hne].
  - rewrite join_cons. cbn [app]. now rewrite IH.
  - destruct ps as [|q qs].
    + cbn [join] in *. now rewrite IH.
    + rewrite join_cons in *. cbn [app]. now rewrite IH.
Qed.

Lemma split_no_sep sep s : Forall (fun piece => ~ In sep piece) (split sep s).
Proof.
  induction s as [|c r IH]; simpl.
  - constructor; [intros []|constructor].
  - destruct (N.eqb_spec c sep) as [->|Hne].
    + constructor; [intros []|exact IH].
    + destruct (split sep r) as [|p ps]; [repeat constructor; intros [H|[]]; congruence|].
      inversion IH; subst. constructor; [|assumption].
      intros [H|H]; [congruence|contradiction].
Qed.

Lemma trimStart_spec s :
  exists w, s = w ++ trimStart s /\ all_space w /\
            match trimStart s with [] => True | c :: _ => is_space c = false end.
Proof.
  induction s as [|c r (w & E & Hw & Hh)]; simpl.
  - exists []; repeat split; constructor.
  - destruct (is_space c) eqn:Hc.
    + exists (c :: w); simpl; repeat split; [congruence|now constructor|assumption].
    + exists []; repeat split; [constructor|assumption].
Qed.

Lemma trimEnd_nil_iff s : trimEnd s = [] <-> all_space s.
Proof.
  induction s as [|c r IH]; simpl.
  - split; [constructor|reflexivity].
  - destruct (trimEnd r) as [|d r'] eqn:E.
    + destruct (is_space c) eqn:Hc; split; intro H; try discriminate; auto.
      * constructor; [assumption|now apply IH].
      * inversion H; congruence.
    + split; [discriminate|]. intro H. inversion H; subst.
      assert (d :: r' = []) by now apply IH. discriminate.
Qed.

Lemma last_default {A : Type} (l : list A) (x a b : A) :
  last (x :: l) a = last (x :: l) b.
Proof.
  revert x. induction l as [|y l IH]; intros x; [reflexivity|].
  change (last (y :: l) a = last (y :: l) b). apply IH.
Qed.

Lemma trimEnd_spec s :
  exists w, s = trimEnd s ++ w /\ all_space w /\
            match trimEnd s with [] => True | c :: _ => is_space (last (trimEnd s) c) = false end.
Proof.
  induction s as [|c r (w & E & Hw & Hl)]; simpl.
  - exists []; repeat split; constructor.
  - destruct (trimEnd r) as [|d r'] eqn:Er.
    + destruct (is_space c) eqn:Hc.
      * exists (c :: w). simpl in E. subst r. repeat split. now constructor.
      * exists w. simpl in E. subst r. repeat split; simpl; assumption.
    + exists w. rewrite E at 1. repeat split; [assumption|].
      destruct r' as [|x r'']; [exact Hl|].
      change (is_space (last (x :: r'') c) = false).
      change (is_space (last (x :: r'') d) = false) in Hl.
      now rewrite (last_default r'' x c d).
Qed.

Lemma trimEnd_head c r :
  is_space c = false -> exists r', trimEnd (c :: r) = c :: r'.
Proof.
  intros Hc. simpl. destruct (trimEnd r); rewrite ?Hc; eauto.
Qed.

Lemma trim_trimmed s : trimmed (trim s).
Proof.
  unfold trim. destruct (trimStart_spec s) as (w & _ & _ & Hh).
  destruct (trimStart s) as [|c r] eqn:E; [exact I|].
  destruct (trimEnd_head c r Hh) as (r' & Er).
  destruct (trimEnd_spec (c :: r)) as (w' & _ & _ & Hl).
  rewrite Er in *. simpl. split; assumption.
Qed.

Lemma trimStart_fix s :
  match s with [] => True | c :: _ => is_space c = false end -> trimStart s = s.
Proof. destruct s as [|c r]; simpl; [reflexivity|]. now intros ->. Qed.

Lemma trimEnd_fix s :
  match s with [] => True | c :: _ => is_space (last s c) = false end -> trimEnd s = s.
Proof.
  induction s as [|c r IH]; [reflexivity|].
  intros H. destruct r as [|d r'].
  - simpl in *. now rewrite H.
  - assert (Hr : trimEnd (d :: r') = d :: r').
    { apply IH. change (is_space (last (d :: r') c) = false) in H.
      now rewrite (last_default r' d d c). }
    change (trimEnd (c :: d :: r')) with
      (match trimEnd (d :: r') with [] => if is_space c then [] else [c] | r0 => c :: r0 end).
    now rewrite Hr.
Qed.

Lemma trim_fix s : trimmed s -> trim s = s.
Proof.
  intros H. unfold trim. destruct s as [|c r]; [reflexivity|].
  destruct H as [Hc Hl]. rewrite trimStart_fix by exact Hc.
  now apply trimEnd_fix.
Qed.

Lemma trim_idempotent s : trim (trim s) = trim s.
Proof. apply trim_fix, trim_trimmed. Qed.

Lemma parseNames_In text name :
  In name (parseNames text) <->
  exists line, In line (split LF text) /\ name = trim line /\ name <> [].
Proof.
  unfold parseNames. rewrite filter_In, in_map_iff. split.
  - intros [(line & <- & Hin) Hlen]. exists line. repeat split; [assumption|].
    intros E. rewrite E in Hlen. discriminate.
  - intros (line & Hin & -> & Hne). split; [eauto|].
    destruct (trim line); [contradiction|reflexivity].
Qed.

Lemma split_sep_free sep x : ~ In sep x -> split sep x = [x].
Proof.
  induction x as [|c r IH]; intros H; [reflexivity|].
  cbn [split]. destruct (N.eqb_spec c sep) as [->|Hne].
  - exfalso. apply H. now left.
  - rewrite IH; [reflexivity|]. intros Hin. apply H. now right.
Qed.

Lemma split_app sep x rest :
  ~ In sep x -> split sep (x ++ sep :: rest) = x :: split sep rest.
Proof.
  induction x as [|c r IH]; intros H.
  - cbn [app split]. now rewrite N.eqb_refl.
  - cbn [app split]. destruct (N.eqb_spec c sep) as [->|Hne].
    + exfalso. apply H. now left.
    + rewrite IH; [reflexivity|]. intros Hin. apply H. now right.
Qed.

Lemma split_join sep lines :
  lines <> [] -> Forall (fun l => ~ In sep l) lines ->
  split sep (join sep lines) = lines.
Proof.
  induction lines as [|x rest IH]; intros Hne Hfree; [contradiction|].
  inversion Hfree as [|? ? Hx Hrest]; subst.
  destruct rest as [|y rest'].
  - cbn [join]. now apply split_sep_free.
  - rewrite join_cons, split_app by assumption.
    f_equal. apply IH; [discriminate|assumption].
Qed.

Lemma keep_named_cons (x : jsstring) l :
  filter (fun n : jsstring => 0 <? List.length n) (x :: l)
  = match x with
    | [] => filter (fun n : jsstring => 0 <? List.length n) l
    | _ => x :: filter (fun n : jsstring => 0 <? List.length n) l
    end.
Proof. now destruct x. Qed.

Lemma parseNames_clean text :
  Forall (fun n => n <> [] /\ trimmed n) (parseNames text).
Proof.
  apply Forall_forall. intros n Hin.
  apply parseNames_In in Hin. destruct Hin as (line & _ & -> & Hne).
  split; [assumption|apply trim_trimmed].
Qed.

(* ------------------------------------------------------------------ *)
(** ** The name-list parser                                            *)
(* ------------------------------------------------------------------ *)

(** C3. The name-list parser takes the lines of the text (the pieces between
    line feeds), trims each one, drops those that are empty after trimming
    and keeps the others in the order of the input. It is a total function:
    every text, and an absent payload, gives a list, at worst the empty one.
    Every name returned is non-empty and has no white space at either end. On
    the roster "Alice Smith\n\nBob Jones\n  \n" it returns
    ["Alice Smith"; "Bob Jones"]. *)
Theorem name_list_parser (lines : list jsstring) :
  lines <> [] ->
  Forall (fun l => ~ In LF l) lines ->
  parseNames (join LF lines)
  = filter (fun n => negb (JsString.eqb n [])) (map trim lines)
  /\ Forall (fun n => n <> [] /\ trimmed n) (parseNames (join LF lines))
  /\ (forall text, exists ls, ls <> [] /\ Forall (fun l => ~ In LF l) ls
                              /\ text = join LF ls)
  /\ parseNames (textOrEmpty None) = []
  /\ parseNames rosterText = [js "Alice Smith"; js "Bob Jones"].
Proof.
  intros Hne Hfree. repeat split.
  - unfold parseNames. rewrite split_join by assumption.
    apply filter_ext. intros n. now destruct n.
  - apply parseNames_clean.
  - intros text. exists (split LF text). repeat split.
    + apply split_nonempty.
    + apply split_no_sep.
    + symmetry. apply join_split.
Qed.

Lemma name_list_parser_witness :
  parseNames (join LF [js " Ada "; []; js "Bo"])
  = filter (fun n => negb (JsString.eqb n [])) (map trim [js " Ada "; []; js "Bo"]).
Proof.
  refine (proj1 (name_list_parser [js " Ada "; []; js "Bo"] _ _)).
  - discriminate.
  - repeat constructor; vm_compute; intuition discriminate.
Defined.

(** C7, as the code has it. Blank lines are dropped and every entry is
    trimmed and non-empty, but equal entries are all kept: a name is returned
    once for each line that trims to it. *)
Theorem names_keep_duplicates (text name : jsstring) :
  name <> [] ->
  count_occ (list_eq_dec N.eq_dec) (parseNames text) name
  = count_occ (list_eq_dec N.eq_dec) (map trim (split LF text)) name
  /\ Forall (fun n => n <> [] /\ trimmed n) (parseNames text).
Proof.
  intros Hne. split; [|apply parseNames_clean].
  unfold parseNames.
  induction (map (fun n => trim n) (split LF text)) as [|x l IH]; [reflexivity|].
  rewrite keep_named_cons. destruct x as [|c r].
  - rewrite count_occ_cons_neq by congruence. exact IH.
  - destruct (list_eq_dec N.eq_dec (c :: r) name) as [E|E].
    + rewrite !count_occ_cons_eq by assumption. f_equal. exact IH.
    + rewrite !count_occ_cons_neq by assumption. exact IH.
Qed.

Lemma names_keep_duplicates_witness :
  count_occ (list_eq_dec N.eq_dec) (parseNames twiceText) (js "Ada")
  = count_occ (list_eq_dec N.eq_dec) (map trim (split LF twiceText)) (js "Ada").
Proof.
  refine (proj1 (names_keep_duplicates twiceText (js "Ada") _)).
  discriminate.
Defined.

(** C7 as stated fails: two lines with the same name give two equal
    entries. *)
Lemma names_not_deduplicated :
  parseNames twiceText = [js "Ada"; js "Ada"] /\ ~ NoDup (parseNames twiceText).
Proof.
  assert (E : parseNames twiceText = [js "Ada"; js "Ada"]) by reflexivity.
  split; [exact E|]. rewrite E. intros H. inversion H as [|? ? Hnin _]; subst.
  apply Hnin. now left.
Qed.

(* ------------------------------------------------------------------ *)
(** ** Fence markers                                                   *)
(* ------------------------------------------------------------------ *)


Lemma trimStart_spaces w s : all_space w -> trimStart (w ++ s) = trimStart s.
Proof.
  induction 1 as [|c w Hc _ IH]; [reflexivity|].
  cbn [app trimStart]. now rewrite Hc.
Qed.

Lemma eqb_true a b : JsString.eqb a b = true -> a = b.
Proof. unfold JsString.eqb. now destruct (list_eq_dec N.eq_dec a b). Qed.



Lemma stripClosingFence_eq text :
  stripClosingFence text
  = if closingFenceHere text then []
    else match text with
         | [] => []
         | c :: r => c :: stripClosingFence r
         end.
Proof. now destruct text. Qed.



(* ------------------------------------------------------------------ *)
(** ** The client                                                      *)
(* ------------------------------------------------------------------ *)

Lemma getAIClient_ready g :
  ready g -> getAIClient g = (Returned (Some {| apiKey := credential g |}), []).
Proof.
  intros [Hk Hc]. unfold getAIClient, credential in *.
  destruct (process g) as [| | |k]; try contradiction.
  cbn in *. destruct (textOrEmpty k) as [|c r] eqn:E; [contradiction|].
  cbn. now rewrite Hc.
Qed.

Lemma getAIClient_keyless g :
  credential g = [] ->
  getAIClient g
  = (Returned None,
     match process g with
     | EnvThrows => [ConsoleWarn (js "Environment variable access failed."); missingKeyLog]
     | _ => [missingKeyLog]
     end).
Proof.
  unfold getAIClient, credential.
  destruct (process g) as [| | |k]; try reflexivity.
  cbn. now intros ->.
Qed.

Lemma liveGateway_ready answer : ready (liveGateway answer).
Proof. split; [discriminate|reflexivity]. Qed.

Lemma getAIClient_total g :
  exists ai t, getAIClient g = (Returned ai, t) /\ no_await t.
Proof.
  destruct (list_eq_dec N.eq_dec (credential g) []) as [E|E].
  - rewrite (getAIClient_keyless g E). do 2 eexists. split; [reflexivity|].
    now destruct (process g).
  - unfold getAIClient, credential in *.
    destruct (process g) as [| | |k]; try contradiction.
    cbn in *. destruct (textOrEmpty k) as [|c r]; [contradiction|].
    cbn. destruct (construct g (c :: r)); cbn; do 2 eexists; split; reflexivity.
Qed.

(* ------------------------------------------------------------------ *)
(** ** The JSON parser has fuel to spare                               *)
(* ------------------------------------------------------------------ *)

Lemma span_digits_length base s ds rest :
  Literal.span_digits base s = (ds, rest) ->
  List.length s = List.length ds + List.length rest.
Proof.
  revert ds rest. induction s as [|c r IH]; intros ds rest E; cbn in E.
  - now inversion E.
  - destruct (Literal.digit_val base c).
    + destruct (Literal.span_digits base r) as [ds' rest'] eqn:Er.
      inversion E; subst. cbn. now rewrite (IH ds' rest).
    + inversion E; subst. reflexivity.
Qed.

Lemma scan_exponent_length s e rest :
  Literal.scan_exponent s = Some (e, rest) -> List.length rest <= List.length s.
Proof.
  unfold Literal.scan_exponent. destruct s as [|c r]; [now inversion 1|].
  destruct ((c =? 101)%N || (c =? 69)%N); [|now inversion 1].
  set (signed := match r with
                 | [] => (false, r)
                 | sg :: r' => if (sg =? 45)%N then (true, r')
                               else if (sg =? 43)%N then (false, r') else (false, r)
                 end).
  assert (L : List.length (snd signed) <= List.length r).
  { subst signed. destruct r as [|sg r']; [apply le_n|].
    destruct (sg =? 45)%N; [cbn; lia|]. destruct (sg =? 43)%N; cbn; lia. }
  destruct signed as [neg r1]. cbn [snd] in L.
  destruct (Literal.span_digits 10 r1) as [ds rest'] eqn:Ed.
  apply span_digits_length in Ed. destruct ds; [discriminate|].
  inversion 1; subst. cbn [List.length] in *. lia.
Qed.

Lemma scan_json_number_length s n rest :
  Literal.scan_json_number s = Some (n, rest) -> List.length rest < List.length s.
Proof.
  unfold Literal.scan_json_number.
  set (signed := match s with
                 | [] => (false, s)
                 | c :: r => if (c =? 45)%N then (true, r) else (false, s)
                 end).
  assert (L : List.length (snd signed) <= List.length s).
  { subst signed. destruct s as [|c r]; [apply le_n|].
    destruct (c =? 45)%N; cbn; lia. }
  destruct signed as [neg s1]. cbn [snd] in L.
  destruct (Literal.span_digits 10 s1) as [ints s2] eqn:Ei.
  apply span_digits_length in Ei. destruct ints as [|d more]; [discriminate|].
  destruct ((d =? 0)%N && negb (Nat.eqb (List.length more) 0)); [discriminate|].
  match goal with
  | |- match ?f with _ => _ end = _ -> _ => set (frac := f)
  end.
  assert (F : forall fs s3, frac = Some (fs, s3) -> List.length s3 <= List.length s2).
  { subst frac. intros fs s3. destruct s2 as [|c r]; [now inversion 1|].
    destruct (c =? 46)%N; [|now inversion 1].
    destruct (Literal.span_digits 10 r) as [fs' s3'] eqn:Ef.
    apply span_digits_length in Ef. destruct fs'; [discriminate|].
    inversion 1; subst. cbn [List.length] in *. lia. }
  destruct frac as [[fs s3]|]; [|discriminate].
  specialize (F fs s3 eq_refl).
  destruct (Literal.scan_exponent s3) as [[e s4]|] eqn:Ee; [|discriminate].
  apply scan_exponent_length in Ee. inversion 1; subst.
  cbn [List.length] in *. lia.
Qed.

Lemma scan_string_length_upto n s str rest :
  List.length s <= n ->
  JSON.scan_string s = Some (str, rest) -> List.length rest < List.length s.
Proof.
  revert s str rest. induction n as [|n IH]; intros s str rest Hn.
  - destruct s; [discriminate|cbn in Hn; lia].
  - destruct s as [|c r]; [discriminate|]. cbn [List.length] in Hn.
    cbn [JSON.scan_string].
    destruct (c =? 34)%N; [inversion 1; subst; cbn; lia|].
    destruct (c =? 92)%N.
    + destruct r as [|e r1]; [discriminate|]. destruct (e =? 117)%N.
      * destruct r1 as [|h1 [|h2 [|h3 [|h4 r2]]]]; try discriminate.
        destruct (JSON.hex4 h1 h2 h3 h4); [|discriminate].
        destruct (JSON.scan_string r2) as [[str' rest']|] eqn:E; [|discriminate].
        apply IH in E; [|cbn [List.length] in Hn; lia].
        inversion 1; subst. cbn [List.length] in *. lia.
      * destruct (JSON.escape e); [|discriminate].
        destruct (JSON.scan_string r1) as [[str' rest']|] eqn:E; [|discriminate].
        apply IH in E; [|cbn [List.length] in Hn; lia].
        inversion 1; subst. cbn [List.length] in *. lia.
    + destruct (c <? 32)%N; [discriminate|].
      destruct (JSON.scan_string r) as [[str' rest']|] eqn:E; [|discriminate].
      apply IH in E; [|lia]. inversion 1; subst. cbn [List.length] in *. lia.
Qed.

Lemma scan_string_length s str rest :
  JSON.scan_string s = Some (str, rest) -> List.length rest < List.length s.
Proof. apply (scan_string_length_upto (List.length s)), le_n. Qed.

Lemma skip_space_length s : List.length (JSON.skip_space s) <= List.length s.
Proof.
  induction s as [|c r IH]; [apply le_n|].
  cbn [JSON.skip_space]. destruct (JSON.is_json_space c); cbn [List.length]; lia.
Qed.

Lemma strip_prefix_length p s rest :
  strip_prefix p s = Some rest -> List.length s = List.length p + List.length rest.
Proof.
  revert s. induction p as [|a p IH]; intros s E; cbn in E.
  - now inversion E.
  - destruct s as [|b s']; [discriminate|].
    destruct (a =? b)%N; [|discriminate]. cbn. now rewrite (IH s').
Qed.

Lemma keyword_length word t s t' rest :
  word <> EmptyString ->
  JSON.keyword word t s = JSON.LexToken t' rest -> List.length rest < List.length s.
Proof.
  intros Hw. unfold JSON.keyword.
  destruct (strip_prefix (js word) s) as [rest'|] eqn:E; [|discriminate].
  apply strip_prefix_length in E. inversion 1; subst.
  destruct word; [contradiction|]. cbn in E. lia.
Qed.

Lemma next_token_length s t rest :
  JSON.next_token s = JSON.LexToken t rest -> List.length rest < List.length s.
Proof.
  unfold JSON.next_token. pose proof (skip_space_length s) as L.
  destruct (JSON.skip_space s) as [|c r]; [discriminate|]. cbn [List.length] in L.
  repeat match goal with
         | |- (if ?b then _ else _) = _ -> _ =>
             destruct b; [try (inversion 1; subst; lia)|]
         end.
  - destruct (JSON.scan_string r) as [[str rest']|] eqn:E; [|discriminate].
    apply scan_string_length in E. inversion 1; subst. lia.
  - intros E. apply keyword_length in E; [|discriminate]. cbn [List.length] in E. lia.
  - intros E. apply keyword_length in E; [|discriminate]. cbn [List.length] in E. lia.
  - intros E. apply keyword_length in E; [|discriminate]. cbn [List.length] in E. lia.
  - destruct (Literal.scan_json_number (c :: r)) as [[n rest']|] eqn:E; [|discriminate].
    apply scan_json_number_length in E. inversion 1; subst. cbn [List.length] in E. lia.
Qed.

(** Any two amounts of fuel above the length of the text give the same
    answer: [JSON.parse] never stops for lack of fuel. *)
Lemma run_fuel fuel1 fuel2 e stack s :
  List.length s < fuel1 -> List.length s < fuel2 ->
  JSON.run fuel1 e stack s = JSON.run fuel2 e stack s.
Proof.
  revert fuel2 e stack s.
  induction fuel1 as [|f1 IH]; intros fuel2 e stack s H1 H2; [lia|].
  destruct fuel2 as [|f2]; [lia|]. cbn [JSON.run].
  destruct (JSON.next_token s) as [| |t rest] eqn:E; try reflexivity.
  apply next_token_length in E.
  destruct (JSON.step e stack t) as [[e' stack']|]; [|reflexivity].
  apply IH; lia.
Qed.

(** More fuel does not change what [JSON.parse] answers. *)
Corollary parse_fuel fuel text :
  List.length text < fuel -> JSON.run fuel JSON.Value [] text = JSON.parse text.
Proof. intros H. apply run_fuel; [exact H|apply Nat.lt_succ_diag_r]. Qed.

(* ------------------------------------------------------------------ *)
(** ** The builtins on sample values                                   *)
(* ------------------------------------------------------------------ *)

Example parse_accepts :
  map JSON.parse [jsq "[]"; jsq " {'a': [true, null], 'a': 'x'} "; jsq "-1.5e1";
                  jsq "'\u0041\n'"]
  = [Some (JArray []);
     Some (JObject [(js "a", JString (js "x"))]);
     Some (JNumber (of_Z (-15)));
     Some (JString [65; 10]%N)].
Proof. reflexivity. Qed.

Example parse_rejects :
  map JSON.parse [[]; jsq "[1,]"; jsq "{'a':1,}"; jsq "{a:1}"; jsq "01"; jsq "1."; jsq "+1";
                  jsq "nul"; jsq "[1 2]"; jsq "'open"; jsq "[] []"; fence ++ jsq "[]"]
  = repeat None 12.
Proof. reflexivity. Qed.

Example object_keys_order :
  JSON.parse (jsq "{'b':1,'2':2,'a':3,'1':4}")
  = Some (JObject [(js "1", JNumber (of_Z 4)); (js "2", JNumber (of_Z 2));
                   (js "b", JNumber (of_Z 1)); (js "a", JNumber (of_Z 3))]).
Proof. reflexivity. Qed.

Example to_number_samples :
  map Literal.StringToNumber [js ""; js " 12 "; js "0x1F"; js "1e3"; js "-0"; js "12px"; js "."]
  = [zero; of_Z 12; of_Z 31; of_Z 1000; S754_zero true; NaN; NaN].
Proof. reflexivity. Qed.

Example to_fixed_samples :
  map (toFixed 2) [of_decimal false 1005 (-3); of_decimal true 1 (-3);
                   div (of_Z 20) (of_Z 3); of_decimal false 1 21; Infinity; NaN]
  = [js "1.00"; js "-0.00"; js "6.67"; js "1e+21"; js "Infinity"; js "NaN"].
Proof. vm_compute. reflexivity. Qed.

(** A text without a backtick goes to the parser as it is. *)
Lemma stripFences_plain text : ~ In BACKTICK text -> stripFences text = text.
Proof.
  intros H. unfold stripFences, stripOpeningFence.
  assert (P : strip_prefix (fence ++ js "json") text = None).
  { destruct text as [|c r]; [reflexivity|].
    change (fence ++ js "json") with (BACKTICK :: [BACKTICK; BACKTICK] ++ js "json").
    cbn [strip_prefix]. destruct (N.eqb_spec BACKTICK c) as [E|_]; [|reflexivity].
    exfalso. apply H. left. now symmetry. }
  rewrite P. clear P. induction text as [|c r IH].
  - reflexivity.
  - rewrite stripClosingFence_eq.
    assert (E : closingFenceHere (c :: r) = false).
    { unfold closingFenceHere. destruct (JsString.eqb _ fence) eqn:E; [|reflexivity].
      apply eqb_true in E. exfalso. apply H.
      destruct (trimStart_spec (c :: r)) as (w & Ew & _). rewrite Ew, E.
      apply in_or_app. right. now left. }
    rewrite E. f_equal. apply IH. intros Hin. apply H. now right.
Qed.

(* ------------------------------------------------------------------ *)
(** ** The grade-record parser                                         *)
(* ------------------------------------------------------------------ *)

(** What [extractGradesFromImage] does once it has a client and the image
    has been read. *)
Lemma extractGrades_ready g file url :
  ready g -> data_url file = Some url ->
  extractGradesFromImage g file
  = let req := gradesRequest file (base64Of url) in
    match generateContent g req with
    | Rejects e =>
        (Thrown gradesFailure, [ReadAsDataURL; GenerateContent req; gradesErrorLog e])
    | Resolves (Some ((_ :: _) as text)) =>
        match JSON.parse (stripFences text) with
        | Some v => (Returned v, [ReadAsDataURL; GenerateContent req])
        | None => (Thrown gradesFailure,
                   [ReadAsDataURL; GenerateContent req; gradesErrorLog SyntaxError])
        end
    | Resolves _ => (Returned (JArray []), [ReadAsDataURL; GenerateContent req])
    end.
Proof.
  intros Hr Hf. unfold extractGradesFromImage.
  rewrite (getAIClient_ready g Hr). unfold fileToGenerativePart, callModel.
  rewrite Hf. fold (base64Of url). cbn [bind emit ret app].
  destruct (generateContent g (gradesRequest file (base64Of url))) as [e|[[|c r]|]];
    try reflexivity.
  cbn [bind ret throw try_catch app]. unfold JSON_parse.
  now destruct (JSON.parse (stripFences (c :: r))).
Qed.



(** C2, as the code has it. When the provider answers with a non-empty text
    that is not valid JSON once the fence markers are removed, the syntax
    error is logged and the caller gets the error "Failed to extract grades
    from image."; no list is returned. *)
Theorem malformed_grades_raise g file url text :
  ready g -> data_url file = Some url ->
  generateContent g (gradesRequest file (base64Of url)) = Resolves (Some text) ->
  text <> [] ->
  JSON.parse (stripFences text) = None ->
  extractGradesFromImage g file
  = (Thrown gradesFailure,
     [ReadAsDataURL; GenerateContent (gradesRequest file (base64Of url));
      gradesErrorLog SyntaxError]).
Proof.
  intros Hr Hf Hg Hne Hbad.
  rewrite (extractGrades_ready g file url Hr Hf). cbv zeta. rewrite Hg.
  destruct text as [|c r]; [contradiction|]. now rewrite Hbad.
Qed.

Lemma malformed_grades_raise_witness :
  result (extractGradesFromImage (liveGateway (Resolves (Some (js "not json")))) photo)
  = Thrown gradesFailure.
Proof.
  rewrite (malformed_grades_raise (liveGateway (Resolves (Some (js "not json"))))
             photo photoUrl (js "not json")).
  - reflexivity.
  - split; [discriminate|reflexivity].
  - reflexivity.
  - reflexivity.
  - discriminate.
  - reflexivity.
Defined.

(** C2 as stated fails on the empty text: it is not valid JSON, with or
    without fence markers, and the parser returns the empty list for it. *)
Lemma empty_text_is_not_json_but_gives_empty_list :
  JSON.parse (stripFences []) = None
  /\ result (extractGradesFromImage (liveGateway (Resolves (Some []))) photo)
     = Returned (JArray []).
Proof. split; reflexivity. Qed.

(** C9. When the provider answers and the text of the answer is empty or
    absent, [extractGradesFromImage] returns the empty list: nothing is
    thrown and nothing is logged, the trace holding the file read and the
    request only. The empty text is not handed to [JSON.parse], which would
    have rejected it. *)
Theorem empty_payload_gives_no_grades g file url :
  ready g -> data_url file = Some url ->
  (generateContent g (gradesRequest file (base64Of url)) = Resolves None
   \/ generateContent g (gradesRequest file (base64Of url)) = Resolves (Some [])) ->
  extractGradesFromImage g file
  = (Returned (JArray []),
     [ReadAsDataURL; GenerateContent (gradesRequest file (base64Of url))])
  /\ JSON_parse [] = (Thrown SyntaxError, []).
Proof.
  intros Hr Hf Hg. split; [|reflexivity].
  rewrite (extractGrades_ready g file url Hr Hf). cbv zeta.
  now destruct Hg as [-> | ->].
Qed.

Lemma empty_payload_gives_no_grades_witness :
  result (extractGradesFromImage (liveGateway (Resolves None)) photo)
  = Returned (JArray []).
Proof.
  rewrite (proj1 (empty_payload_gives_no_grades (liveGateway (Resolves None))
                    photo photoUrl (liveGateway_ready _) eq_refl
                    (or_introl eq_refl))).
  reflexivity.
Defined.

(* ------------------------------------------------------------------ *)
(** ** No credential                                                   *)
(* ------------------------------------------------------------------ *)

Lemma keyless_trace_quiet g :
  no_await (match process g with
            | EnvThrows => [ConsoleWarn (js "Environment variable access failed.");
                            missingKeyLog]
            | _ => [missingKeyLog]
            end).
Proof. now destruct (process g). Qed.

Lemma no_await_no_network t : no_await t -> no_network t.
Proof.
  unfold no_await, no_network. induction t as [|ev t IH]; [reflexivity|].
  cbn [existsb]. destruct ev; cbn; try discriminate; exact IH.
Qed.

(** C5. With no API key configured, none of the three operations reads the
    file or sends a request: each one ends before its first suspension point.
    [generateSessionContent] returns the placeholder "AI Service Unavailable
    (Missing or Invalid API Key)", [extractStudentNamesFromImage] throws the
    error "AI Service Unavailable. Check API Key." and
    [extractGradesFromImage] throws the error "AI Service Unavailable". *)
Theorem no_credential_fails_fast g topic type file :
  credential g = [] ->
  (result (generateSessionContent g topic type)
   = Returned (js "AI Service Unavailable (Missing or Invalid API Key)")
   /\ no_await (trace (generateSessionContent g topic type))
   /\ no_network (trace (generateSessionContent g topic type)))
  /\ (result (extractStudentNamesFromImage g file)
      = Thrown (Error (js "AI Service Unavailable. Check API Key."))
      /\ no_await (trace (extractStudentNamesFromImage g file))
      /\ no_network (trace (extractStudentNamesFromImage g file)))
  /\ (result (extractGradesFromImage g file)
      = Thrown (Error (js "AI Service Unavailable"))
      /\ no_await (trace (extractGradesFromImage g file))
      /\ no_network (trace (extractGradesFromImage g file))).
Proof.
  intros Hk. pose proof (keyless_trace_quiet g) as Hq.
  unfold generateSessionContent, extractStudentNamesFromImage, extractGradesFromImage.
  rewrite (getAIClient_keyless g Hk).
  cbn [bind ret throw result trace fst snd]. rewrite app_nil_r.
  repeat split; auto using no_await_no_network.
Qed.

Lemma no_credential_fails_fast_witness :
  result (extractGradesFromImage keylessGateway photo)
  = Thrown (Error (js "AI Service Unavailable"))
  /\ no_network (trace (extractGradesFromImage keylessGateway photo)).
Proof.
  pose proof (no_credential_fails_fast keylessGateway (js "relay") quiz photo eq_refl)
    as (_ & _ & H & _ & N).
  exact (conj H N).
Defined.

(* ------------------------------------------------------------------ *)
(** ** Session content                                                 *)
(* ------------------------------------------------------------------ *)

(* ------------------------------------------------------------------ *)
(** ** The profile page                                                *)
(* ------------------------------------------------------------------ *)

(** The part of C6 that holds. When the promise of [saveStudent] is
    fulfilled with [null], [handleSave] tells the user with the alert "Failed
    to save changes." and leaves the student of the page as it was before the
    call, with every field of it; the class group is untouched too and the
    saving flag is lowered again. *)
Lemma save_failure_reported (saveStudent : Student -> settled (option Student)) st s :
  student st = Some s ->
  saveStudent s = Fulfilled None ->
  snd (handleSave saveStudent st) = [PreventDefault; Alert (js "Failed to save changes.")]
  /\ student (fst (handleSave saveStudent st)) = Some s
  /\ classGroup (fst (handleSave saveStudent st)) = classGroup st
  /\ isLoading (fst (handleSave saveStudent st)) = isLoading st
  /\ isSaving (fst (handleSave saveStudent st)) = false.
Proof.
  intros Hs Hfail. unfold handleSave. rewrite Hs, Hfail. cbn.
  repeat split; assumption.
Qed.

Lemma save_failure_reported_witness :
  snd (handleSave brokenStore_saveStudent editing)
  = [PreventDefault; Alert (js "Failed to save changes.")]
  /\ student (fst (handleSave brokenStore_saveStudent editing)) = Some ada.
Proof.
  pose proof (save_failure_reported brokenStore_saveStudent editing ada eq_refl eq_refl)
    as (A & S & _).
  exact (conj A S).
Defined.

(** What [handleSave] does when the promise of [saveStudent] is rejected:
    the [await] is not in a [try], so the handler ends there. *)
Lemma handleSave_rejected (saveStudent : Student -> settled (option Student)) st s e :
  student st = Some s ->
  saveStudent s = Rejected e ->
  handleSave saveStudent st
  = (setIsSaving true st, [PreventDefault; UnhandledRejection e]).
Proof. intros Hs Hr. unfold handleSave. now rewrite Hs, Hr. Qed.

(** C6 fails on the code. When the store fails by rejecting the promise of
    [saveStudent], [handleSave] stops at the [await]: the student in memory
    is untouched, but no alert is shown, the rejection is handled by nobody
    and the saving flag stays raised. *)
Theorem rejected_save_goes_unreported :
  handleSave downStore_saveStudent editing
  = (setIsSaving true editing,
     [PreventDefault; UnhandledRejection (Foreign (js "network down"))])
  /\ student (fst (handleSave downStore_saveStudent editing)) = student editing
  /\ (forall m, ~ In (Alert m) (snd (handleSave downStore_saveStudent editing)))
  /\ isSaving (fst (handleSave downStore_saveStudent editing)) = true.
Proof.
  rewrite (handleSave_rejected downStore_saveStudent editing ada
             (Foreign (js "network down")) eq_refl eq_refl).
  repeat split. intros m [H|[H|[]]]; discriminate H.
Qed.

(** The part of C8 that holds. Once the page has loaded a student whose
    class does not resolve, it shows the profile with the placeholder
    "Unassigned Class" as the class, next to the name and the average, when
    the page held no class group before (as when it is mounted) or when the
    student has a class reference. *)
Lemma unresolved_class_placeholder
    (getStudent : jsstring -> settled (option Student))
    (getClass : jsstring -> settled (option ClassGroup)) id st s :
  id <> [] ->
  getStudent id = Fulfilled (Some s) ->
  unresolved getClass s ->
  classGroup st = None \/ hasClassId s ->
  render (fst (fetchData getStudent getClass (Some id) st))
  = Profile (firstn 1 (name s)) (name s) (js "Unassigned Class") (calculateAverage s).
Proof.
  intros Hid Hget Hun Hst. unfold fetchData.
  destruct id as [|i id']; [contradiction|]. rewrite Hget.
  unfold unresolved, hasClassId in *.
  destruct (classId s) as [[|c cs]|].
  - destruct Hst as [Hst|[]]. unfold render, classDisplay. cbn. now rewrite Hst.
  - rewrite Hun. reflexivity.
  - destruct Hst as [Hst|[]]. unfold render, classDisplay. cbn. now rewrite Hst.
Qed.

Lemma unresolved_class_placeholder_witness :
  render (fst (fetchData (lonelyStore_getStudent ada) emptyStore_getClass
                         (Some (js "s1")) mounted))
  = Profile (js "A") (js "Ada") (js "Unassigned Class") (js "15.00").
Proof.
  refine (unresolved_class_placeholder (lonelyStore_getStudent ada) emptyStore_getClass
            (js "s1") mounted ada _ eq_refl eq_refl (or_introl eq_refl)).
  discriminate.
Defined.

(** A remark next to C8: [fetchData] sets the class group only for a student
    with a class reference, so on a page that showed a class before, a student
    without one is displayed with the class that was there. *)
Remark class_group_kept_without_reference
    (getStudent : jsstring -> settled (option Student))
    (getClass : jsstring -> settled (option ClassGroup)) id st s :
  id <> [] -> getStudent id = Fulfilled (Some s) -> ~ hasClassId s ->
  classGroup (fst (fetchData getStudent getClass (Some id) st)) = classGroup st.
Proof.
  intros Hid Hget Hno. unfold fetchData.
  destruct id as [|i id']; [contradiction|]. rewrite Hget.
  unfold hasClassId in Hno. destruct (classId s) as [[|c cs]|]; try reflexivity.
  now destruct Hno.
Qed.

(** C8 fails on the code. The page is mounted on the route of [ada], whose
    class resolves to "5A"; the route then changes to [newcomer], who has no
    class reference, so that no class resolves for him. [fetchData] does not
    reset the class group, and the page shows [newcomer] in the class "5A"
    instead of "Unassigned Class". *)
Theorem second_visit_keeps_first_class :
  let first := fst (fetchData school_getStudent school_getClass (Some (js "s1")) mounted) in
  let second := fst (fetchData school_getStudent school_getClass (Some (js "s2")) first) in
  render first = Profile (js "A") (js "Ada") (js "5A") (js "15.00")
  /\ unresolved school_getClass newcomer
  /\ render second = Profile (js "B") (js "Bo") (js "5A") (js "0.00")
  /\ classDisplay second <> js "Unassigned Class".
Proof.
  cbv zeta. split; [reflexivity|]. split; [exact I|]. split; [reflexivity|].
  discriminate.
Qed.

(* ------------------------------------------------------------------ *)
(** ** Decimal digits                                                  *)
(* ------------------------------------------------------------------ *)

Lemma lt_pow10_log2 n : (n < 10 ^ N.succ (N.log2 n))%N.
Proof.
  destruct n as [|p]; [reflexivity|].
  apply N.lt_le_trans with (2 ^ N.succ (N.log2 (Npos p)))%N.
  - apply N.log2_spec. reflexivity.
  - apply N.pow_le_mono_l. discriminate.
Qed.

Lemma digits_fuel_step f n acc :
  digits_fuel (S f) n acc
  = if (n <? 10)%N then (48 + n mod 10)%N :: acc
    else digits_fuel f (n / 10)%N ((48 + n mod 10)%N :: acc).
Proof. reflexivity. Qed.

Lemma pow10_succ f : (10 ^ N.of_nat (S f) = 10 * 10 ^ N.of_nat f)%N.
Proof. now rewrite Nat2N.inj_succ, N.pow_succ_r'. Qed.

Lemma tenth_lt n f :
  (n < 10 * 10 ^ N.of_nat f)%N -> (n / 10 < 10 ^ N.of_nat f)%N.
Proof. intros H. apply N.Div0.div_lt_upper_bound. exact H. Qed.

Lemma fuel_positive n f :
  (10 <= n)%N -> (n / 10 < 10 ^ N.of_nat f)%N -> exists f', f = S f'.
Proof.
  intros Hn H. destruct f as [|f']; [|eauto].
  exfalso. cbn in H. assert (1 <= n / 10)%N; [|lia].
  apply N.div_le_lower_bound; lia.
Qed.

Lemma digits_fuel_acc f n acc :
  (n < 10 ^ N.of_nat (S f))%N ->
  digits_fuel (S f) n acc = digits_fuel (S f) n [] ++ acc.
Proof.
  revert n acc. induction f as [|f IH]; intros n acc H;
    rewrite (digits_fuel_step _ n acc), (digits_fuel_step _ n []);
    destruct (N.ltb_spec n 10) as [L|L]; try reflexivity.
  rewrite pow10_succ in H. apply tenth_lt in H.
  rewrite (IH _ [_]), (IH _ (_ :: acc)) by exact H.
  now rewrite <- app_assoc.
Qed.

Lemma digits_fuel_indep f1 f2 n acc :
  (n < 10 ^ N.of_nat (S f1))%N -> (n < 10 ^ N.of_nat (S f2))%N ->
  digits_fuel (S f1) n acc = digits_fuel (S f2) n acc.
Proof.
  revert f2 n acc. induction f1 as [|f1 IH]; intros f2 n acc H1 H2;
    rewrite (digits_fuel_step _ n acc), (digits_fuel_step f2 n acc);
    destruct (N.ltb_spec n 10) as [L|L]; try reflexivity.
  - change (10 ^ N.of_nat 1)%N with 10%N in H1. lia.
  - rewrite pow10_succ in H1, H2. apply tenth_lt in H1, H2.
    destruct (fuel_positive _ _ L H2) as [f2' ->]. now apply IH.
Qed.

Lemma digits_small n : (n < 10)%N -> digits n = [(48 + n mod 10)%N].
Proof.
  intros H. unfold digits. rewrite digits_fuel_step.
  now destruct (N.ltb_spec n 10); [|lia].
Qed.

Lemma digits_snoc n :
  (10 <= n)%N -> digits n = digits (n / 10) ++ [(48 + n mod 10)%N].
Proof.
  intros H. unfold digits at 1. rewrite digits_fuel_step.
  destruct (N.ltb_spec n 10) as [L|_]; [lia|].
  pose proof (lt_pow10_log2 n) as B. rewrite N.pow_succ_r' in B.
  rewrite <- (N2Nat.id (N.log2 n)) in B. apply tenth_lt in B.
  destruct (fuel_positive _ _ H B) as [f E]. rewrite E in *.
  rewrite digits_fuel_acc by exact B. f_equal.
  unfold digits. apply digits_fuel_indep; [exact B|].
  rewrite Nat2N.inj_succ, N2Nat.id. apply lt_pow10_log2.
Qed.

Lemma digits_nonempty n : digits n <> [].
Proof.
  destruct (N.ltb_spec n 10) as [L|L].
  - now rewrite digits_small.
  - rewrite digits_snoc by exact L. now destruct (digits (n / 10)).
Qed.

(** With two fraction digits: the digits of the hundreds, a point, the
    tens digit and the units digit. *)
Lemma fixed_digits_2 n :
  fixed_digits 2 n
  = digits (n / 100) ++ [46; 48 + (n / 10) mod 10; 48 + n mod 10]%N.
Proof.
  unfold fixed_digits.
  destruct (N.ltb_spec n 10) as [L1|L1].
  - rewrite (digits_small n L1).
    rewrite (N.div_small n 100), (N.div_small n 10) by lia. reflexivity.
  - rewrite (digits_snoc n L1).
    destruct (N.ltb_spec n 100) as [L2|L2].
    + rewrite (N.div_small n 100) by lia.
      rewrite digits_small by (apply N.Div0.div_lt_upper_bound; lia). reflexivity.
    + assert (L3 : (10 <= n / 10)%N) by (apply N.div_le_lower_bound; lia).
      rewrite (digits_snoc (n / 10) L3), N.Div0.div_div.
      change (10 * 10)%N with 100%N.
      pose proof (digits_nonempty (n / 100)) as Hne.
      remember (digits (n / 100)) as hi eqn:Ehi. clear Ehi.
      assert (Hl : 1 <= List.length hi) by (destruct hi; [contradiction|cbn; lia]).
      rewrite <- !app_assoc. cbn [app].
      rewrite !length_app. cbn [List.length].
      replace (3 - (List.length hi + 2)) with 0 by lia.
      cbn [repeat app List.length].
      replace (0 + (List.length hi + 2) - 2) with (List.length hi + 0) by lia.
      rewrite firstn_app_2, skipn_app, skipn_all2 by lia.
      replace (List.length hi + 0 - List.length hi) with 0 by lia.
      cbn [firstn skipn app]. now rewrite app_nil_r.
Qed.

(* ------------------------------------------------------------------ *)
(** ** The average                                                     *)
(* ------------------------------------------------------------------ *)

Lemma scaled_round_nearest neg m e :
  let x := S754_finite neg m e in
  let n := Z.of_N (scaled_round 2 m e) in
  ((2 * n - 1) * denominator x <= 200 * numerator x < (2 * n + 1) * denominator x)%Z.
Proof.
  cbv zeta. unfold scaled_round, numerator, denominator.
  change (10 ^ Z.of_nat 2)%Z with 100%Z.
  destruct e as [|k|k].
  - rewrite Z2N.id by lia. change (2 ^ 0)%Z with 1%Z. lia.
  - assert (0 < 2 ^ Zpos k)%Z by (apply Z.pow_pos_nonneg; lia).
    rewrite Z2N.id by nia. nia.
  - set (d := (2 ^ Zpos k)%Z).
    assert (Hd : (0 < d)%Z) by (apply Z.pow_pos_nonneg; lia).
    set (q := ((2 * (Zpos m * 100) + d) / (2 * d))%Z).
    assert (Hq : (0 <= q)%Z) by (apply Z.div_pos; lia).
    rewrite Z2N.id by exact Hq.
    pose proof (Z.mul_div_le (2 * (Zpos m * 100) + d) (2 * d)) as Lo.
    pose proof (Z.mul_succ_div_gt (2 * (Zpos m * 100) + d) (2 * d)) as Hi.
    fold q in Lo, Hi. lia.
Qed.

Lemma toFixed_2_nearest x :
  below_1e21 x = true ->
  exists n : N,
    toFixed 2 x
    = minus_sign x ++ digits (n / 100) ++ [46; 48 + (n / 10) mod 10; 48 + n mod 10]%N
    /\ ((2 * Z.of_N n - 1) * denominator x <= 200 * numerator x
        < (2 * Z.of_N n + 1) * denominator x)%Z.
Proof.
  destruct x as [z|i| |neg m e]; try discriminate; intros H.
  - exists 0%N. split; [reflexivity|cbn; lia].
  - exists (scaled_round 2 m e). split; [|apply scaled_round_nearest].
    cbn [below_1e21] in H. apply negb_true_iff in H.
    unfold toFixed, minus_sign. rewrite H, fixed_digits_2. now destruct neg.
Qed.

Lemma in_upTo n a : a <= n -> In a (upTo n).
Proof. intros H. apply in_seq. lia. Qed.

Lemma sums_checked :
  forallb (fun a => forallb (addsExactly a) (upTo 100)) (upTo 200) = true.
Proof. vm_compute. reflexivity. Qed.

Lemma coercions_checked : forallb coercesToItself (upTo 100) = true.
Proof. vm_compute. reflexivity. Qed.

Lemma thirds_checked : forallb thirdWrittenExactly (upTo 300) = true.
Proof. vm_compute. reflexivity. Qed.

Lemma sum_exact a b :
  a <= 200 -> b <= 100 ->
  add (of_Z (Z.of_nat a)) (of_Z (Z.of_nat b)) = of_Z (Z.of_nat (a + b)).
Proof.
  intros Ha Hb. pose proof sums_checked as T.
  rewrite forallb_forall in T. specialize (T a (in_upTo 200 a Ha)).
  rewrite forallb_forall in T. specialize (T b (in_upTo 100 b Hb)).
  unfold addsExactly in T. now destruct (number_eq_dec _ _).
Qed.

Lemma coerced_whole a :
  a <= 100 -> coerced (PNumber (of_Z (Z.of_nat a))) = of_Z (Z.of_nat a).
Proof.
  intros Ha. pose proof coercions_checked as T.
  rewrite forallb_forall in T. specialize (T a (in_upTo 100 a Ha)).
  unfold coercesToItself in T. now destruct (number_eq_dec _ _).
Qed.

(** The average of whole-number notes up to 100 is computed without error
    before the division, and the third is written as the exact one. *)
Lemma whole_notes_exact a b c :
  a <= 100 -> b <= 100 -> c <= 100 ->
  calculateAverage (graded a b c) = fixed_digits 2 (exactHundredths (a + b + c)).
Proof.
  intros Ha Hb Hc. unfold calculateAverage, average, graded, pupil.
  cbn [note1 note2 note3]. rewrite !coerced_whole by assumption.
  rewrite (sum_exact a b) by lia. rewrite (sum_exact (a + b) c) by lia.
  pose proof thirds_checked as T. rewrite forallb_forall in T.
  assert (Hs : a + b + c <= 300) by lia.
  specialize (T (a + b + c) (in_upTo 300 _ Hs)).
  now apply eqb_true.
Qed.

Ltac alike_done :=
  first [left; reflexivity | right; do 2 eexists; split; reflexivity].

Lemma coerced_alike v : alike (coerced v) (claimedNote v).
Proof.
  unfold coerced, orZero, claimedNote, truthy, zero.
  destruct (ToNumber v) as [z|i| |sg m e]; alike_done.
Qed.

Lemma add_alike x x' y y' : alike x x' -> alike y y' -> alike (add x y) (add x' y').
Proof.
  unfold alike, add, SFadd.
  intros [->|(a & b & -> & ->)] [->|(c & d & -> & ->)].
  - now left.
  - destruct x' as [z|i| |sg m e]; try alike_done; destruct z, c, d; alike_done.
  - destruct y' as [z|i| |sg m e]; try alike_done; destruct a, b, z; alike_done.
  - destruct a, b, c, d; alike_done.
Qed.

Lemma div_alike x x' y : alike x x' -> alike (div x y) (div x' y).
Proof.
  unfold alike, div, SFdiv. intros [->|(a & b & -> & ->)]; [now left|].
  destruct y as [z|i| |sg m e]; alike_done.
Qed.

Lemma toFixed_alike f x y : alike x y -> toFixed f x = toFixed f y.
Proof. intros [->|(a & b & -> & ->)]; reflexivity. Qed.

(** What [calculateAverage] writes is the claimed average, written by
    [toFixed(2)]: [|| 0] differs from the claimed coercion only in the sign
    of a zero, which the text does not show. *)
Lemma calculateAverage_claimed s :
  calculateAverage s = toFixed 2 (claimedAverage s).
Proof.
  unfold calculateAverage, average, claimedAverage.
  apply toFixed_alike, div_alike, add_alike; [apply add_alike|];
    apply coerced_alike.
Qed.

Lemma missing_note_is_zero t v s :
  ToNumber v = NaN ->
  calculateAverage (withNote t v s) = calculateAverage (withNote t (PNumber zero) s).
Proof.
  intros H. unfold calculateAverage, average.
  assert (C : coerced v = coerced (PNumber zero)).
  { unfold coerced. now rewrite H. }
  destruct t; cbn [withNote note1 note2 note3]; now rewrite C.
Qed.

(** C4, as the code has it. For every student, [calculateAverage] writes
    with [toFixed(2)] the number [(note1 + note2 + note3) / 3] computed in
    binary64 arithmetic on the notes as numbers, a note that is missing or
    not numeric (one [Number] turns into [NaN]) counting as 0: replacing such
    a note by 0 does not change the result. When that average is finite and
    below [10^21] in magnitude, the text is the average rounded to the nearest
    hundredth, away from zero on a tie, with a minus sign if it is negative,
    its integer digits, a point and exactly two decimals. For whole-number
    notes from 0 to 100 this is the exact third of their sum, rounded; for
    the notes 12, 15 and 18 it is "15.00", and for 12, a missing note and 18
    it is "10.00". *)
Theorem average_two_decimals :
  (forall v, ToNumber v = NaN -> coerced v = zero)
  /\ coerced PUndefined = zero
  /\ coerced (PString (js "absent")) = zero
  /\ (forall s, calculateAverage s = toFixed 2 (claimedAverage s))
  /\ (forall t v s,
        ToNumber v = NaN ->
        calculateAverage (withNote t v s) = calculateAverage (withNote t (PNumber zero) s))
  /\ (forall s,
        below_1e21 (claimedAverage s) = true ->
        exists n : N,
          calculateAverage s
          = minus_sign (claimedAverage s) ++ digits (n / 100)
            ++ [46; 48 + (n / 10) mod 10; 48 + n mod 10]%N
          /\ ((2 * Z.of_N n - 1) * denominator (claimedAverage s)
              <= 200 * numerator (claimedAverage s)
              < (2 * Z.of_N n + 1) * denominator (claimedAverage s))%Z)
  /\ (forall a b c,
        a <= 100 -> b <= 100 -> c <= 100 ->
        calculateAverage (graded a b c)
        = fixed_digits 2 (exactHundredths (a + b + c)))
  /\ calculateAverage ada = js "15.00"
  /\ calculateAverage absentee = js "10.00".
Proof.
  split; [intros v E; unfold coerced; now rewrite E|].
  split; [reflexivity|]. split; [reflexivity|].
  split; [exact calculateAverage_claimed|].
  split; [exact missing_note_is_zero|].
  split; [intros s H; rewrite calculateAverage_claimed; now apply toFixed_2_nearest|].
  split; [exact whole_notes_exact|]. split; reflexivity.
Qed.

Lemma average_two_decimals_witness :
  calculateAverage (graded 10 13 17) = js "13.33"
  /\ calculateAverage (withNote term2 (PString (js "absent")) ada) = js "10.00"
  /\ exists n : N,
       calculateAverage ada
       = minus_sign (claimedAverage ada) ++ digits (n / 100)
         ++ [46; 48 + (n / 10) mod 10; 48 + n mod 10]%N.
Proof.
  destruct average_two_decimals as (_ & _ & _ & _ & Z & R & G & _). split; [|split].
  - rewrite (G 10 13 17) by lia. reflexivity.
  - rewrite (Z term2 (PString (js "absent")) ada eq_refl). reflexivity.
  - destruct (R ada eq_refl) as (n & E & _). exists n. exact E.
Defined.

(** C4 as stated fails for a large note: with the notes [3e21], 0 and 0 the
    average is [1e21], and [calculateAverage] writes it in exponential
    notation, without a point and without decimals. *)
Lemma huge_average_has_no_decimals :
  calculateAverage outlier = js "1e+21"
  /\ ~ In 46%N (calculateAverage outlier).
Proof.
  assert (E : calculateAverage outlier = js "1e+21") by (vm_compute; reflexivity).
  split; [exact E|]. rewrite E. cbn. intuition discriminate.
Qed.

(* ================================================================== *)
(** * Further properties of the helper module                          *)
(* ================================================================== *)

(** The three ways [getAIClient] can go. *)
Lemma getAIClient_cases g :
  (ready g /\ getAIClient g = (Returned (Some {| apiKey := credential g |}), []))
  \/ (credential g = [] /\ exists t, getAIClient g = (Returned None, t)
                                      /\ In missingKeyLog t /\ no_await t)
  \/ (exists e, credential g <> [] /\ construct g (credential g) = Some e
                 /\ getAIClient g = (Returned None, [initErrorLog e])).
Proof.
  destruct (list_eq_dec N.eq_dec (credential g) []) as [E|E].
  - right. left. split; [exact E|]. rewrite (getAIClient_keyless g E).
    eexists. split; [reflexivity|].
    destruct (process g); (split; [cbn; tauto|reflexivity]).
  - destruct (construct g (credential g)) as [e|] eqn:C.
    + right. right. exists e. repeat split; [exact E|].
      unfold getAIClient, credential in *.
      destruct (process g) as [| | |k]; try contradiction.
      cbn in *. destruct (textOrEmpty k) as [|c r]; [contradiction|].
      cbn. now rewrite C.
    + left. assert (R : ready g) by now split.
      split; [exact R|now apply getAIClient_ready].
Qed.

Lemma not_ready_cases g :
  ~ ready g <->
  credential g = [] \/ exists e, credential g <> [] /\ construct g (credential g) = Some e.
Proof.
  unfold ready. split.
  - intros H. destruct (list_eq_dec N.eq_dec (credential g) []) as [E|E]; [now left|].
    right. destruct (construct g (credential g)) as [e|]; [eauto|].
    exfalso. apply H. now split.
  - intros [E|(e & _ & C)] [Hk Hc]; congruence.
Qed.

(** X1. [getAIClient] never throws and never waits. It returns a client
    exactly when a non-empty key is configured and the constructor of the SDK
    accepts it; the client holds that key and nothing is logged. In every
    other case it returns [null] and has logged an error on the console. *)
Theorem client_exactly_when_ready g :
  (forall c, result (getAIClient g) = Returned (Some c)
             <-> ready g /\ c = {| apiKey := credential g |})
  /\ (result (getAIClient g) = Returned None <-> ~ ready g)
  /\ (ready g -> trace (getAIClient g) = [])
  /\ (~ ready g -> exists m d, In (ConsoleError m d) (trace (getAIClient g)))
  /\ no_await (trace (getAIClient g)).
Proof.
  destruct (getAIClient_cases g)
    as [[R E]|[[K (t & E & L & Q)]|(e & K & C & E)]]; rewrite E;
    unfold result, trace; cbn [fst snd].
  - split; [intros c; split; [intros H; inversion H; now split|intros [_ ->]; reflexivity]|].
    split; [split; [discriminate|intros N; contradiction]|].
    split; [intros _; reflexivity|]. split; [intros N; contradiction|reflexivity].
  - assert (N : ~ ready g) by (apply not_ready_cases; now left).
    split; [intros c; split; [discriminate|intros [Rd _]; contradiction]|].
    split; [split; [intros _; exact N|reflexivity]|].
    split; [intros Rd; contradiction|].
    split; [intros _; unfold missingKeyLog in L; eauto|exact Q].
  - assert (N : ~ ready g) by (apply not_ready_cases; right; eauto).
    split; [intros c; split; [discriminate|intros [Rd _]; contradiction]|].
    split; [split; [intros _; exact N|reflexivity]|].
    split; [intros Rd; contradiction|].
    split; [intros _; do 2 eexists; left; reflexivity|reflexivity].
Qed.

Lemma client_exactly_when_ready_witness :
  result (getAIClient refusedGateway) = Returned None.
Proof.
  apply (proj2 (proj1 (proj2 (client_exactly_when_ready refusedGateway)))).
  intros [_ C]. discriminate C.
Defined.

(** Without a client each operation ends with what [getAIClient] logged. *)
Lemma operations_without_client g t topic type file :
  getAIClient g = (Returned None, t) ->
  generateSessionContent g topic type
  = (Returned (js "AI Service Unavailable (Missing or Invalid API Key)"), t)
  /\ extractStudentNamesFromImage g file
     = (Thrown (Error (js "AI Service Unavailable. Check API Key.")), t)
  /\ extractGradesFromImage g file = (Thrown (Error (js "AI Service Unavailable")), t).
Proof.
  intros E.
  unfold generateSessionContent, extractStudentNamesFromImage, extractGradesFromImage.
  rewrite E. cbn [bind ret throw]. now rewrite app_nil_r.
Qed.

(** X2. A key that the SDK refuses is treated like a missing one: the error
    of the constructor is logged, and each of the three operations ends there,
    without reading the file and without a request, with the same placeholder
    and the same two errors as when no key is configured. *)
Theorem refused_key_fails_fast g e topic type file :
  credential g <> [] ->
  construct g (credential g) = Some e ->
  generateSessionContent g topic type
  = (Returned (js "AI Service Unavailable (Missing or Invalid API Key)"), [initErrorLog e])
  /\ extractStudentNamesFromImage g file
     = (Thrown (Error (js "AI Service Unavailable. Check API Key.")), [initErrorLog e])
  /\ extractGradesFromImage g file
     = (Thrown (Error (js "AI Service Unavailable")), [initErrorLog e]).
Proof.
  intros K C. apply operations_without_client.
  destruct (getAIClient_cases g) as [[[_ R] _]|[[K' _]|(e' & _ & C' & E)]];
    try congruence.
Qed.

Lemma refused_key_fails_fast_witness :
  extractGradesFromImage refusedGateway photo
  = (Thrown (Error (js "AI Service Unavailable")),
     [initErrorLog (Foreign (js "invalid key"))]).
Proof.
  refine (proj2 (proj2 (refused_key_fails_fast refusedGateway (Foreign (js "invalid key"))
                          (js "relay") quiz photo _ eq_refl))).
  discriminate.
Defined.

(** What the three operations do once they have a client. *)
Lemma session_ready g topic type :
  ready g ->
  generateSessionContent g topic type
  = let req := sessionRequest topic type in
    match generateContent g req with
    | Rejects e =>
        (Returned (js "Failed to generate content. Please check your API key settings."),
         [GenerateContent req; sessionErrorLog e])
    | Resolves (Some ((_ :: _) as text)) => (Returned text, [GenerateContent req])
    | Resolves _ => (Returned (js "No content generated."), [GenerateContent req])
    end.
Proof.
  intros Hr. unfold generateSessionContent. rewrite (getAIClient_ready g Hr).
  unfold callModel. cbn [bind emit ret app].
  now destruct (generateContent g (sessionRequest topic type)) as [e|[[|c r]|]].
Qed.

Lemma extractNames_ready g file url :
  ready g -> data_url file = Some url ->
  extractStudentNamesFromImage g file
  = let req := namesRequest file (base64Of url) in
    match generateContent g req with
    | Rejects e =>
        (Thrown namesFailure, [ReadAsDataURL; GenerateContent req; namesErrorLog e])
    | Resolves text =>
        (Returned (parseNames (textOrEmpty text)), [ReadAsDataURL; GenerateContent req])
    end.
Proof.
  intros Hr Hf. unfold extractStudentNamesFromImage.
  rewrite (getAIClient_ready g Hr). unfold fileToGenerativePart, callModel.
  rewrite Hf. fold (base64Of url). cbn [bind emit ret app].
  now destruct (generateContent g (namesRequest file (base64Of url))).
Qed.

Lemma extraction_unreadable g file :
  ready g -> data_url file = None ->
  extractStudentNamesFromImage g file = (Thrown readerError, [ReadAsDataURL])
  /\ extractGradesFromImage g file = (Thrown readerError, [ReadAsDataURL]).
Proof.
  intros Hr Hf. unfold extractStudentNamesFromImage, extractGradesFromImage.
  rewrite (getAIClient_ready g Hr). unfold fileToGenerativePart. rewrite Hf.
  split; reflexivity.
Qed.

(** X3. Once the request is answered, name extraction cannot fail: whatever
    the text of the answer, the names parsed from it are returned, and an
    absent or empty text gives the empty list. One file read and one request
    are made and nothing is logged. *)
Theorem answered_names_never_fail g file url text :
  ready g -> data_url file = Some url ->
  generateContent g (namesRequest file (base64Of url)) = Resolves text ->
  extractStudentNamesFromImage g file
  = (Returned (parseNames (textOrEmpty text)),
     [ReadAsDataURL; GenerateContent (namesRequest file (base64Of url))])
  /\ (text = None \/ text = Some [] ->
      result (extractStudentNamesFromImage g file) = Returned []).
Proof.
  intros Hr Hf Hg. rewrite (extractNames_ready g file url Hr Hf). cbv zeta.
  rewrite Hg. split; [reflexivity|]. now intros [-> | ->].
Qed.

Lemma answered_names_never_fail_witness :
  result (extractStudentNamesFromImage (liveGateway (Resolves (Some rosterText))) photo)
  = Returned [js "Alice Smith"; js "Bob Jones"].
Proof.
  rewrite (proj1 (answered_names_never_fail (liveGateway (Resolves (Some rosterText)))
                    photo photoUrl (Some rosterText) (liveGateway_ready _)
                    eq_refl eq_refl)).
  reflexivity.
Defined.

(** X4. When the provider rejects the request, the caller never sees the
    cause: it is logged on the console, [generateSessionContent] returns its
    fixed failure text, and the two extractions throw their fixed errors. The
    request is not sent again. *)
Theorem provider_error_masked g file url topic type :
  ready g -> data_url file = Some url ->
  (forall e, generateContent g (sessionRequest topic type) = Rejects e ->
     generateSessionContent g topic type
     = (Returned (js "Failed to generate content. Please check your API key settings."),
        [GenerateContent (sessionRequest topic type); sessionErrorLog e]))
  /\ (forall e, generateContent g (namesRequest file (base64Of url)) = Rejects e ->
     extractStudentNamesFromImage g file
     = (Thrown namesFailure,
        [ReadAsDataURL; GenerateContent (namesRequest file (base64Of url));
         namesErrorLog e]))
  /\ (forall e, generateContent g (gradesRequest file (base64Of url)) = Rejects e ->
     extractGradesFromImage g file
     = (Thrown gradesFailure,
        [ReadAsDataURL; GenerateContent (gradesRequest file (base64Of url));
         gradesErrorLog e])).
Proof.
  intros Hr Hf. repeat split; intros e He.
  - rewrite (session_ready g topic type Hr). cbv zeta. now rewrite He.
  - rewrite (extractNames_ready g file url Hr Hf). cbv zeta. now rewrite He.
  - rewrite (extractGrades_ready g file url Hr Hf). cbv zeta. now rewrite He.
Qed.

Lemma provider_error_masked_witness :
  result (extractStudentNamesFromImage (liveGateway (Rejects (Foreign (js "503")))) photo)
  = Thrown namesFailure.
Proof.
  rewrite (proj1 (proj2 (provider_error_masked
                           (liveGateway (Rejects (Foreign (js "503")))) photo photoUrl
                           (js "relay") quiz (liveGateway_ready _) eq_refl))
                 (Foreign (js "503")) eq_refl).
  reflexivity.
Defined.

(** X5. The file is read outside the [try] block: when the read fails, both
    extractions reject with the error of the reader itself, not with one of
    their own messages; nothing is logged and no request is sent. *)
Theorem unreadable_file_rejects g file :
  ready g -> data_url file = None ->
  extractStudentNamesFromImage g file = (Thrown readerError, [ReadAsDataURL])
  /\ extractGradesFromImage g file = (Thrown readerError, [ReadAsDataURL])
  /\ readerError <> namesFailure /\ readerError <> gradesFailure.
Proof.
  intros Hr Hf. destruct (extraction_unreadable g file Hr Hf) as [A B].
  repeat split; try assumption; discriminate.
Qed.

Lemma unreadable_file_rejects_witness :
  extractGradesFromImage (liveGateway (Resolves None)) unreadable
  = (Thrown readerError, [ReadAsDataURL]).
Proof.
  exact (proj1 (proj2 (unreadable_file_rejects (liveGateway (Resolves None)) unreadable
                         (liveGateway_ready _) eq_refl))).
Defined.

Lemma requests_quiet t : no_await t -> requests t = 0.
Proof.
  intros H. apply no_await_no_network in H. unfold requests, no_network in *.
  induction t as [|ev t IH]; [reflexivity|]. cbn [existsb filter] in *.
  destruct (is_network ev); [discriminate|]. now apply IH.
Qed.

Lemma not_ready_quiet g :
  ~ ready g -> exists t, getAIClient g = (Returned None, t) /\ requests t = 0.
Proof.
  intros N. destruct (getAIClient_cases g)
    as [[R _]|[[_ (t & E & _ & Q)]|(e & _ & _ & E)]]; [contradiction| |].
  - exists t. split; [exact E|now apply requests_quiet].
  - eexists. split; [exact E|reflexivity].
Qed.

Lemma ready_dec g : ready g \/ ~ ready g.
Proof.
  destruct (getAIClient_cases g) as [[R _]|[[K _]|(e & K & C & _)]]; [now left| |];
    right; apply not_ready_cases; [now left|right; eauto].
Qed.

(** C10. [generateSessionContent] always returns a string and never throws,
    and the string is not empty. When no key is configured, or the SDK
    refuses the key, it is "AI Service Unavailable (Missing or Invalid API
    Key)". With a usable key: when the request is rejected it is "Failed to
    generate content. Please check your API key settings."; when the answer
    has no text or an empty one it is "No content generated."; otherwise it
    is the text of the answer. *)
Theorem session_content_total g topic type :
  exists s,
    result (generateSessionContent g topic type) = Returned s
    /\ s <> []
    /\ (credential g = [] ->
        s = js "AI Service Unavailable (Missing or Invalid API Key)")
    /\ (~ ready g ->
        s = js "AI Service Unavailable (Missing or Invalid API Key)")
    /\ (ready g ->
        match generateContent g (sessionRequest topic type) with
        | Rejects _ =>
            s = js "Failed to generate content. Please check your API key settings."
        | Resolves (Some ((_ :: _) as text)) => s = text
        | Resolves _ => s = js "No content generated."
        end).
Proof.
  destruct (ready_dec g) as [R|N].
  - rewrite (session_ready g topic type R). cbv zeta.
    destruct (generateContent g (sessionRequest topic type)) as [e|[[|x r]|]];
      (eexists; split; [reflexivity|]; split; [discriminate|]; split;
       [intros K; now destruct R|split; [intros N; contradiction|intros _; reflexivity]]).
  - destruct (not_ready_quiet g N) as (t & E & _).
    destruct (operations_without_client g t topic type photo E) as (-> & _).
    eexists; split; [reflexivity|]; split; [discriminate|]; split;
      [intros _; reflexivity|split; [intros _; reflexivity|intros R; contradiction]].
Qed.

Lemma session_content_total_witness :
  result (generateSessionContent keylessGateway (js "relay") description)
  = Returned (js "AI Service Unavailable (Missing or Invalid API Key)")
  /\ result (generateSessionContent (liveGateway (Resolves (Some []))) (js "relay") quiz)
     = Returned (js "No content generated.").
Proof.
  split.
  - destruct (session_content_total keylessGateway (js "relay") description)
      as (s & E & _ & U & _).
    rewrite E. f_equal. apply U. reflexivity.
  - destruct (session_content_total (liveGateway (Resolves (Some []))) (js "relay") quiz)
      as (s & E & _ & _ & _ & A).
    rewrite E. f_equal. exact (A (liveGateway_ready _)).
Defined.

(** X6. No operation retries: whatever the gateway and the file, each call
    sends at most one request. [generateSessionContent] sends one exactly when
    a client is available, the extractions exactly when a client is available
    and the file could be read. *)
Theorem one_request_at_most g topic type file :
  (requests (trace (generateSessionContent g topic type)) <= 1
   /\ (requests (trace (generateSessionContent g topic type)) = 1 <-> ready g))
  /\ (requests (trace (extractStudentNamesFromImage g file)) <= 1
      /\ (requests (trace (extractStudentNamesFromImage g file)) = 1
          <-> ready g /\ data_url file <> None))
  /\ (requests (trace (extractGradesFromImage g file)) <= 1
      /\ (requests (trace (extractGradesFromImage g file)) = 1
          <-> ready g /\ data_url file <> None)).
Proof.
  destruct (ready_dec g) as [R|N].
  - assert (S1 : requests (trace (generateSessionContent g topic type)) = 1).
    { rewrite (session_ready g topic type R). cbv zeta.
      now destruct (generateContent g (sessionRequest topic type)) as [e|[[|c r]|]]. }
    split; [rewrite S1; split; [apply le_n|split; [intros _; exact R|reflexivity]]|].
    destruct (data_url file) as [url|] eqn:F.
    + assert (S2 : requests (trace (extractStudentNamesFromImage g file)) = 1).
      { rewrite (extractNames_ready g file url R F). cbv zeta.
        now destruct (generateContent g (namesRequest file (base64Of url))). }
      assert (S3 : requests (trace (extractGradesFromImage g file)) = 1).
      { rewrite (extractGrades_ready g file url R F). cbv zeta.
        destruct (generateContent g (gradesRequest file (base64Of url))) as [e|[[|c r]|]];
          try reflexivity.
        now destruct (JSON.parse (stripFences (c :: r))). }
      rewrite S2, S3.
      split; (split; [apply le_n|split; [intros _; split; [exact R|discriminate]
                                        |reflexivity]]).
    + destruct (extraction_unreadable g file R F) as [-> ->].
      change (requests (trace (Thrown readerError, [ReadAsDataURL]))) with 0.
      split; (split; [apply Nat.le_0_l|split; [discriminate|intros [_ H]; now destruct H]]).
  - destruct (not_ready_quiet g N) as (t & E & Q).
    destruct (operations_without_client g t topic type file E) as (-> & -> & ->).
    unfold trace. cbn [snd]. rewrite Q.
    split; [split; [apply Nat.le_0_l|split; [discriminate|intros R; contradiction]]|].
    split; (split; [apply Nat.le_0_l|split; [discriminate|intros [R _]; contradiction]]).
Qed.

Lemma one_request_at_most_witness :
  requests (trace (extractGradesFromImage (liveGateway (Rejects (Foreign (js "503"))))
                     photo)) = 1.
Proof.
  apply (proj2 (proj2 (proj2 (one_request_at_most
                                (liveGateway (Rejects (Foreign (js "503"))))
                                (js "relay") quiz photo)))).
  split; [apply liveGateway_ready|discriminate].
Defined.

(** X7. The data sent for an image is the part of its data URL after the
    first comma, up to the next comma if there is one: for a URL made of a
    header without comma, a comma and a payload without comma it is the
    payload, untouched. A URL without any comma gives no data at all
    ([undefined]), and no error. *)
Theorem data_url_payload file :
  (forall header rest,
      data_url file = Some (header ++ COMMA :: rest) -> ~ In COMMA header ->
      fileToGenerativePart file
      = (Returned (Some (hd [] (split COMMA rest))), [ReadAsDataURL]))
  /\ (forall header payload,
        data_url file = Some (header ++ COMMA :: payload) ->
        ~ In COMMA header -> ~ In COMMA payload ->
        fileToGenerativePart file = (Returned (Some payload), [ReadAsDataURL]))
  /\ (forall url,
        data_url file = Some url -> ~ In COMMA url ->
        fileToGenerativePart file = (Returned None, [ReadAsDataURL])).
Proof.
  assert (G : forall header rest,
             data_url file = Some (header ++ COMMA :: rest) -> ~ In COMMA header ->
             fileToGenerativePart file
             = (Returned (Some (hd [] (split COMMA rest))), [ReadAsDataURL])).
  { intros header rest F H. unfold fileToGenerativePart. rewrite F.
    change 44%N with COMMA. rewrite split_app by exact H.
    pose proof (split_nonempty COMMA rest) as Hn.
    destruct (split COMMA rest); [contradiction|reflexivity]. }
  split; [exact G|]. split.
  - intros header payload F H P. rewrite (G header payload F H).
    now rewrite split_sep_free.
  - intros url F H. unfold fileToGenerativePart. rewrite F.
    change 44%N with COMMA. now rewrite split_sep_free.
Qed.

Lemma data_url_payload_witness :
  fileToGenerativePart photo = (Returned (Some (js "iVBORw0KGgo=")), [ReadAsDataURL]).
Proof.
  apply (proj1 (proj2 (data_url_payload photo)) (js "data:image/png;base64")).
  - reflexivity.
  - vm_compute. intuition discriminate.
  - vm_compute. intuition discriminate.
Defined.

(** X8. The prompt of [generateSessionContent] determines the topic and the
    kind of content asked for: two calls with different topics, or one for a
    description and one for a quiz, never send the same prompt. *)
Theorem session_prompt_injective topic1 type1 topic2 type2 :
  sessionPrompt topic1 type1 = sessionPrompt topic2 type2 ->
  topic1 = topic2 /\ type1 = type2.
Proof.
  intros H.
  assert (T : type1 = type2).
  { apply (f_equal (fun l => nth_error l 7)) in H.
    destruct type1, type2; try reflexivity; vm_compute in H; discriminate H. }
  subst type2. split; [|reflexivity].
  destruct type1; unfold sessionPrompt in H;
    apply app_inv_head in H; injection H as H; now apply app_inv_tail in H.
Qed.

Lemma session_prompt_injective_witness :
  js "relay" = js "relay" /\ quiz = quiz.
Proof. exact (session_prompt_injective (js "relay") quiz (js "relay") quiz eq_refl). Defined.

Lemma strip_prefix_some p s rest : strip_prefix p s = Some rest -> s = p ++ rest.
Proof.
  revert s. induction p as [|a p IH]; intros s E; cbn in E.
  - now inversion E.
  - destruct s as [|b s']; [discriminate|].
    destruct (N.eqb_spec a b) as [->|_]; [|discriminate].
    cbn. now rewrite (IH s' E).
Qed.

Lemma stripOpeningFence_cut text :
  exists pre,
    text = pre ++ stripOpeningFence text
    /\ (pre = [] \/ exists w, all_space w /\ pre = (fence ++ js "json") ++ w).
Proof.
  unfold stripOpeningFence.
  destruct (strip_prefix (fence ++ js "json") text) as [rest|] eqn:E.
  - apply strip_prefix_some in E. destruct (trimStart_spec rest) as (w & Ew & Hw & _).
    exists ((fence ++ js "json") ++ w). split.
    + rewrite <- app_assoc, <- Ew. exact E.
    + right. now exists w.
  - exists []. split; [reflexivity|now left].
Qed.

Lemma stripClosingFence_cut text :
  exists post,
    text = stripClosingFence text ++ post
    /\ (post = [] \/ exists w, all_space w /\ post = w ++ fence).
Proof.
  induction text as [|c r (post & E & P)].
  - rewrite stripClosingFence_eq. destruct (closingFenceHere []) eqn:H.
    + discriminate H.
    + exists []. split; [reflexivity|now left].
  - rewrite stripClosingFence_eq. destruct (closingFenceHere (c :: r)) eqn:H.
    + unfold closingFenceHere in H. apply eqb_true in H.
      destruct (trimStart_spec (c :: r)) as (w & Ew & Hw & _).
      exists (c :: r). split; [reflexivity|]. right. exists w.
      split; [exact Hw|]. now rewrite <- H.
    + exists post. split; [|exact P]. cbn [app]. now rewrite <- E.
Qed.

(** X9. Fence stripping only cuts at the two ends: what goes to [JSON.parse]
    is a contiguous part of the text of the answer. What is cut at the start
    is nothing or the marker [```json] with the white space after it; what is
    cut at the end is nothing or white space followed by the marker [```]. *)
Theorem stripFences_cuts_ends text :
  exists pre post,
    text = pre ++ stripFences text ++ post
    /\ (pre = [] \/ exists w, all_space w /\ pre = (fence ++ js "json") ++ w)
    /\ (post = [] \/ exists w, all_space w /\ post = w ++ fence).
Proof.
  destruct (stripOpeningFence_cut text) as (pre & E1 & P1).
  destruct (stripClosingFence_cut (stripOpeningFence text)) as (post & E2 & P2).
  exists pre, post. unfold stripFences. now rewrite <- E2.
Qed.

(** X10. An answer without a backtick, as the JSON response type asks for,
    goes to [JSON.parse] as it is, and what [extractGradesFromImage] returns
    is the parsed value whatever its shape: it is not checked to be an array
    of grade records. If the text does not parse, the fixed error is thrown. *)
Theorem plain_answer_parsed_directly g file url text :
  ready g -> data_url file = Some url ->
  generateContent g (gradesRequest file (base64Of url)) = Resolves (Some text) ->
  text <> [] -> ~ In BACKTICK text ->
  result (extractGradesFromImage g file)
  = match JSON.parse text with
    | Some v => Returned v
    | None => Thrown gradesFailure
    end.
Proof.
  intros Hr Hf Hg Hne Hb. rewrite (extractGrades_ready g file url Hr Hf). cbv zeta.
  rewrite Hg. destruct text as [|c r]; [contradiction|].
  rewrite (stripFences_plain (c :: r) Hb).
  now destruct (JSON.parse (c :: r)).
Qed.

Lemma plain_answer_parsed_directly_witness :
  result (extractGradesFromImage (liveGateway (Resolves (Some (jsq "{'total': 3}")))) photo)
  = Returned (JObject [(js "total", JNumber (of_Z 3))]).
Proof.
  rewrite (plain_answer_parsed_directly
             (liveGateway (Resolves (Some (jsq "{'total': 3}")))) photo photoUrl
             (jsq "{'total': 3}") (liveGateway_ready _) eq_refl eq_refl).
  - reflexivity.
  - discriminate.
  - vm_compute. intuition discriminate.
Defined.

(* ================================================================== *)
(** * Further properties of the name-list parser                       *)
(* ================================================================== *)

Lemma name_list_parser_core lines :
  lines <> [] -> Forall (fun l => ~ In LF l) lines ->
  parseNames (join LF lines)
  = filter (fun n => negb (JsString.eqb n [])) (map trim lines).
Proof.
  intros Hne Hfree. unfold parseNames.
  rewrite split_join by assumption. apply filter_ext. intros n. now destruct n.
Qed.

Lemma split_app_sep sep a b :
  split sep (a ++ sep :: b) = split sep a ++ split sep b.
Proof.
  induction a as [|c r IH].
  - cbn [app split]. now rewrite N.eqb_refl.
  - cbn [app split]. rewrite IH. pose proof (split_nonempty sep r) as Hn.
    destruct (c =? sep)%N; [reflexivity|].
    destruct (split sep r); [contradiction|reflexivity].
Qed.

(** X11. Names are parsed line by line: the names of two texts put one
    after the other with a line feed between them are the names of the first
    followed by the names of the second. *)
Theorem parseNames_concat a b :
  parseNames (a ++ LF :: b) = parseNames a ++ parseNames b.
Proof.
  unfold parseNames. now rewrite split_app_sep, map_app, filter_app.
Qed.

Lemma trimStart_incl s c : In c (trimStart s) -> In c s.
Proof.
  destruct (trimStart_spec s) as (w & E & _). intros H. rewrite E.
  apply in_or_app. now right.
Qed.

Lemma trimEnd_incl s c : In c (trimEnd s) -> In c s.
Proof.
  destruct (trimEnd_spec s) as (w & E & _). intros H. rewrite E.
  apply in_or_app. now left.
Qed.

Lemma trim_incl s c : In c (trim s) -> In c s.
Proof. intros H. now apply trimStart_incl, trimEnd_incl. Qed.

Lemma clean_names_fixed names :
  Forall (fun n => n <> [] /\ trimmed n) names ->
  filter (fun n => negb (JsString.eqb n [])) (map trim names) = names.
Proof.
  induction 1 as [|n l [Hne Ht] _ IH]; [reflexivity|].
  cbn [map filter]. rewrite (trim_fix n Ht), IH.
  destruct n; [contradiction|reflexivity].
Qed.

(** X12. A roster written one name per line reads back as it was: for names
    that are non-empty, without white space at their ends and without line
    feed, parsing them joined by line feeds gives the same list, repeated
    names included. In particular the names parsed from a text, written out
    one per line and parsed again, stay the same. *)
Theorem roster_round_trip names :
  Forall (fun n => n <> [] /\ trimmed n /\ ~ In LF n) names ->
  parseNames (join LF names) = names
  /\ (forall text,
        parseNames (join LF (parseNames text)) = parseNames text).
Proof.
  assert (G : forall l, Forall (fun n => n <> [] /\ trimmed n /\ ~ In LF n) l ->
                        parseNames (join LF l) = l).
  { intros l H. destruct l as [|x l']; [reflexivity|].
    assert (F : Forall (fun n => ~ In LF n) (x :: l')).
    { eapply Forall_impl; [|exact H]. cbn. tauto. }
    assert (C : Forall (fun n => n <> [] /\ trimmed n) (x :: l')).
    { eapply Forall_impl; [|exact H]. cbn. tauto. }
    rewrite (name_list_parser_core (x :: l')); [|discriminate|exact F].
    now apply clean_names_fixed. }
  intros H. split; [now apply G|].
  intros text. apply G. apply Forall_forall. intros n Hin.
  apply parseNames_In in Hin. destruct Hin as (line & Hl & -> & Hne).
  split; [exact Hne|]. split; [apply trim_trimmed|].
  intros HLF. apply trim_incl in HLF.
  pose proof (split_no_sep LF text) as S. rewrite Forall_forall in S.
  exact (S line Hl HLF).
Qed.

Lemma roster_round_trip_witness :
  parseNames (join LF [js "Alice Smith"; js "Bob Jones"; js "Alice Smith"])
  = [js "Alice Smith"; js "Bob Jones"; js "Alice Smith"].
Proof.
  apply (roster_round_trip [js "Alice Smith"; js "Bob Jones"; js "Alice Smith"]).
  repeat constructor; try discriminate; vm_compute; intuition discriminate.
Defined.

Lemma trimStart_all_space w : all_space w -> trimStart w = [].
Proof.
  intros H. rewrite <- (app_nil_r w). now rewrite trimStart_spaces.
Qed.

Lemma trimEnd_app_space s w : all_space w -> trimEnd (s ++ w) = trimEnd s.
Proof.
  intros H. induction s as [|c r IH].
  - cbn [app]. now apply trimEnd_nil_iff.
  - cbn [app trimEnd]. now rewrite IH.
Qed.

Lemma trim_app_space s w : all_space w -> trim (s ++ w) = trim s.
Proof.
  intros H. unfold trim. induction s as [|c r IH].
  - cbn [app]. now rewrite trimStart_all_space.
  - cbn [app trimStart]. destruct (is_space c); [exact IH|].
    now apply (trimEnd_app_space (c :: r)).
Qed.

(** X13. Line endings with a carriage return make no difference: a text
    whose lines all end with a carriage return before the line feed gives the
    same names as the text without the carriage returns. *)
Theorem carriage_returns_ignored lines :
  lines <> [] ->
  Forall (fun l => ~ In LF l) lines ->
  parseNames (join LF (map (fun l => l ++ [CR]) lines)) = parseNames (join LF lines).
Proof.
  intros Hne Hfree.
  assert (F' : Forall (fun l => ~ In LF l) (map (fun l => l ++ [CR]) lines)).
  { apply Forall_map. eapply Forall_impl; [|exact Hfree].
    intros l Hl Hin. apply in_app_or in Hin. destruct Hin as [Hin|[Hin|[]]];
      [now apply Hl|discriminate Hin]. }
  rewrite (name_list_parser_core lines Hne Hfree).
  rewrite (name_list_parser_core (map (fun l => l ++ [CR]) lines));
    [|now destruct lines|exact F'].
  rewrite map_map. f_equal. apply map_ext. intros l.
  apply trim_app_space. now repeat constructor.
Qed.

Lemma carriage_returns_ignored_witness :
  parseNames (join LF (map (fun l => l ++ [CR]) [js "Alice Smith"; []; js "Bob Jones"]))
  = parseNames (join LF [js "Alice Smith"; []; js "Bob Jones"]).
Proof.
  apply carriage_returns_ignored.
  - discriminate.
  - repeat constructor; vm_compute; intuition discriminate.
Defined.

(* ================================================================== *)
(** * Further properties of the profile page                           *)
(* ================================================================== *)

(** X14. When the store saves, the page takes the record the store gives
    back in place of the one it had, tells the user with the alert "Changes
    saved successfully!" and lowers the saving flag; the class group and the
    loading flag are as before. *)
Theorem save_success_takes_store_record
    (saveStudent : Student -> settled (option Student)) st s updated :
  student st = Some s ->
  saveStudent s = Fulfilled (Some updated) ->
  handleSave saveStudent st
  = ({| student := Some updated; classGroup := classGroup st;
        isLoading := isLoading st; isSaving := false |},
     [PreventDefault; Alert (js "Changes saved successfully!")]).
Proof. intros Hs Hok. unfold handleSave. now rewrite Hs, Hok. Qed.

Lemma save_success_takes_store_record_witness :
  student (fst (handleSave (fun s => Fulfilled (Some (withName (js "Ada L.") s))) editing))
  = Some (withName (js "Ada L.") ada).
Proof.
  rewrite (save_success_takes_store_record
             (fun s => Fulfilled (Some (withName (js "Ada L.") s)))
             editing ada (withName (js "Ada L.") ada) eq_refl eq_refl).
  reflexivity.
Defined.

(** X15. Whatever the store and the state: [handleSave] cancels the default
    form submission first; it never touches the class group or the loading
    flag; with no student loaded it does nothing else, whatever the store
    would answer; and it never leaves the page without a student if it had
    one. With a student loaded, when the promise of the store is fulfilled it
    shows exactly one alert and leaves the saving flag lowered; when the
    promise is rejected it shows no alert, keeps the student and leaves the
    saving flag raised, the rejection being handled by nobody. *)
Theorem handleSave_invariants (saveStudent : Student -> settled (option Student)) st :
  classGroup (fst (handleSave saveStudent st)) = classGroup st
  /\ isLoading (fst (handleSave saveStudent st)) = isLoading st
  /\ hd_error (snd (handleSave saveStudent st)) = Some PreventDefault
  /\ (student st = None -> handleSave saveStudent st = (st, [PreventDefault]))
  /\ (forall s answer,
        student st = Some s -> saveStudent s = Fulfilled answer ->
        isSaving (fst (handleSave saveStudent st)) = false
        /\ exists m, snd (handleSave saveStudent st) = [PreventDefault; Alert m])
  /\ (forall s e,
        student st = Some s -> saveStudent s = Rejected e ->
        isSaving (fst (handleSave saveStudent st)) = true
        /\ student (fst (handleSave saveStudent st)) = Some s
        /\ snd (handleSave saveStudent st) = [PreventDefault; UnhandledRejection e])
  /\ (student (fst (handleSave saveStudent st)) = None <-> student st = None).
Proof.
  unfold handleSave. destruct (student st) as [s|] eqn:Hs.
  - destruct (saveStudent s) as [[u|]|e] eqn:Hsave;
      cbn [fst snd classGroup isLoading isSaving student setIsSaving setStudent hd_error];
      repeat split; try discriminate; try (now eexists);
      try match goal with
          | H : Some s = Some _ |- _ => inversion H; subst; congruence
          end;
      congruence.
  - cbn [fst snd hd_error]. rewrite Hs.
    repeat split; try reflexivity; try discriminate.
Qed.

Lemma handleSave_invariants_witness :
  isSaving (fst (handleSave downStore_saveStudent editing)) = true
  /\ handleSave brokenStore_saveStudent mounted = (mounted, [PreventDefault]).
Proof.
  pose proof (handleSave_invariants downStore_saveStudent editing)
    as (_ & _ & _ & _ & _ & R & _).
  pose proof (handleSave_invariants brokenStore_saveStudent mounted)
    as (_ & _ & _ & N & _).
  split; [exact (proj1 (R ada _ eq_refl eq_refl))|exact (N eq_refl)].
Defined.

(** X16. Loading with a route id never touches the saving flag. When the
    lookup of the student is answered the page holds the student the store
    has for that id, whatever it showed before, and when the store has none
    it shows "Student not found". The loading flag ends lowered exactly when
    no lookup was rejected: a rejected lookup of the student or of the class
    ends [fetchData] at that [await], handled by nobody, and the page keeps
    showing the spinner. *)
Theorem fetchData_loads
    (getStudent : jsstring -> settled (option Student))
    (getClass : jsstring -> settled (option ClassGroup)) id st :
  id <> [] ->
  isSaving (fst (fetchData getStudent getClass (Some id) st)) = isSaving st
  /\ (forall found, getStudent id = Fulfilled found ->
        student (fst (fetchData getStudent getClass (Some id) st)) = found)
  /\ (getStudent id = Fulfilled None ->
      snd (fetchData getStudent getClass (Some id) st) = []
      /\ render (fst (fetchData getStudent getClass (Some id) st)) = NotFound)
  /\ (forall e, getStudent id = Rejected e ->
        fetchData getStudent getClass (Some id) st
        = (setIsLoading true st, [UnhandledRejection e]))
  /\ (forall s c e,
        getStudent id = Fulfilled (Some s) -> classId s = Some c -> c <> [] ->
        getClass c = Rejected e ->
        fetchData getStudent getClass (Some id) st
        = (setStudent (Some s) (setIsLoading true st), [UnhandledRejection e]))
  /\ (isLoading (fst (fetchData getStudent getClass (Some id) st)) = false
      <-> snd (fetchData getStudent getClass (Some id) st) = [])
  /\ (isLoading (fst (fetchData getStudent getClass (Some id) st)) = true ->
      render (fst (fetchData getStudent getClass (Some id) st)) = Spinner).
Proof.
  intros Hid. destruct id as [|i r]; [contradiction|]. unfold fetchData.
  destruct (getStudent (i :: r)) as [[s|]|e] eqn:G;
    [destruct (classId s) as [[|x xs]|] eqn:C;
     [|destruct (getClass (x :: xs)) as [k|e] eqn:K|]| |];
    repeat split; intros;
    cbn [fst snd isLoading isSaving student setIsLoading setStudent setClassGroup] in *;
    try discriminate; try reflexivity; congruence.
Qed.

Lemma fetchData_loads_witness :
  render (fst (fetchData (lonelyStore_getStudent ada) emptyStore_getClass
                         (Some (js "s7")) showingAda))
  = NotFound
  /\ render (fst (fetchData downStore_getStudent emptyStore_getClass
                            (Some (js "s1")) mounted))
     = Spinner.
Proof.
  split.
  - refine (proj2 (proj1 (proj2 (proj2 (fetchData_loads (lonelyStore_getStudent ada)
                                          emptyStore_getClass (js "s7") showingAda _)))
                     eq_refl)).
    discriminate.
  - refine (proj2 (proj2 (proj2 (proj2 (proj2 (proj2
              (fetchData_loads downStore_getStudent emptyStore_getClass (js "s1")
                               mounted _)))))) eq_refl).
    discriminate.
Defined.

(** X17. Without a route id, absent or empty, [fetchData] returns before it
    touches anything, the loading flag included: the page as mounted keeps
    showing the spinner. *)
Theorem no_id_keeps_spinner
    (getStudent : jsstring -> settled (option Student))
    (getClass : jsstring -> settled (option ClassGroup)) id st :
  id = None \/ id = Some [] ->
  fetchData getStudent getClass id st = (st, [])
  /\ render (fst (fetchData getStudent getClass id mounted)) = Spinner.
Proof. intros [-> | ->]; split; reflexivity. Qed.

Lemma no_id_keeps_spinner_witness :
  render (fst (fetchData (lonelyStore_getStudent ada) emptyStore_getClass None mounted))
  = Spinner.
Proof.
  exact (proj2 (no_id_keeps_spinner (lonelyStore_getStudent ada) emptyStore_getClass
                  None mounted (or_introl eq_refl))).
Defined.

(** X18. When the class reference of the student resolves to a class with a
    name, the page shows that name as the class, whatever it showed before;
    a class whose name is empty is shown as "Unassigned Class". *)
Theorem resolved_class_shown
    (getStudent : jsstring -> settled (option Student))
    (getClass : jsstring -> settled (option ClassGroup)) id st s c k :
  id <> [] -> getStudent id = Fulfilled (Some s) ->
  classId s = Some c -> c <> [] -> getClass c = Fulfilled (Some k) ->
  render (fst (fetchData getStudent getClass (Some id) st))
  = Profile (firstn 1 (name s)) (name s)
            (match class_name k with [] => js "Unassigned Class" | n => n end)
            (calculateAverage s).
Proof.
  intros Hid Hs Hc Hne Hk. destruct id as [|i r]; [contradiction|].
  unfold fetchData. rewrite Hs, Hc. destruct c as [|x xs]; [contradiction|].
  rewrite Hk. unfold render, classDisplay. cbn.
  destruct k as [kid [|y ys]]; reflexivity.
Qed.

Lemma resolved_class_shown_witness :
  render (fst (fetchData (lonelyStore_getStudent ada) (fun _ => Fulfilled (Some class5A))
                         (Some (js "s1")) mounted))
  = Profile (js "A") (js "Ada") (js "5A") (js "15.00").
Proof.
  refine (resolved_class_shown (lonelyStore_getStudent ada)
            (fun _ => Fulfilled (Some class5A))
            (js "s1") mounted ada (js "c9") class5A _ eq_refl eq_refl _ eq_refl);
    discriminate.
Defined.

(** X19. [fetchData] sets the class group only when the student has a class
    reference. On a page that showed a student with a class before, a student
    without a class reference is therefore shown with the class of the
    previous student, not with "Unassigned Class". *)
Theorem previous_class_stays
    (getStudent : jsstring -> settled (option Student))
    (getClass : jsstring -> settled (option ClassGroup)) id st s k :
  id <> [] -> getStudent id = Fulfilled (Some s) -> ~ hasClassId s ->
  classGroup st = Some k -> class_name k <> [] ->
  render (fst (fetchData getStudent getClass (Some id) st))
  = Profile (firstn 1 (name s)) (name s) (class_name k) (calculateAverage s).
Proof.
  intros Hid Hs Hno Hk Hn. destruct id as [|i r]; [contradiction|].
  unfold fetchData. rewrite Hs. unfold hasClassId in Hno.
  destruct (classId s) as [[|x xs]|]; try (now destruct Hno);
    unfold render, classDisplay; cbn; rewrite Hk;
    (destruct k as [kid [|y ys]]; [now destruct Hn|reflexivity]).
Qed.

Lemma previous_class_stays_witness :
  render (fst (fetchData (lonelyStore_getStudent newcomer) emptyStore_getClass
                         (Some (js "s2")) showingAda))
  = Profile (js "B") (js "Bo") (js "5A") (js "0.00").
Proof.
  refine (previous_class_stays (lonelyStore_getStudent newcomer) emptyStore_getClass
            (js "s2") showingAda newcomer class5A _ eq_refl _ eq_refl _);
    try discriminate.
  intros H. exact H.
Defined.

Lemma editNote_loaded t value st s :
  student st = Some s ->
  editNote t value st
  = setStudent (Some (withNote t (PNumber (Literal.StringToNumber value)) s)) st.
Proof. intros H. unfold editNote. now rewrite H. Qed.

Lemma editName_loaded v st s :
  student st = Some s -> editName v st = setStudent (Some (withName v s)) st.
Proof. intros H. unfold editName. now rewrite H. Qed.

(** X20. Editing one score field changes that score only: the new score is
    the number [Number] reads in the field, and the name, the identifier, the
    class reference and the two other scores of the student are as before, as
    are the class group and the flags of the page. Editing the name changes
    the name only. *)
Theorem edits_keep_the_rest t value v st s :
  student st = Some s ->
  (exists s', student (editNote t value st) = Some s'
     /\ noteOf t s' = PNumber (Literal.StringToNumber value)
     /\ (forall t', t' <> t -> noteOf t' s' = noteOf t' s)
     /\ name s' = name s /\ student_id s' = student_id s /\ classId s' = classId s)
  /\ (exists s', student (editName v st) = Some s'
     /\ name s' = v
     /\ (forall t', noteOf t' s' = noteOf t' s)
     /\ student_id s' = student_id s /\ classId s' = classId s)
  /\ classGroup (editNote t value st) = classGroup st
  /\ isLoading (editNote t value st) = isLoading st
  /\ isSaving (editNote t value st) = isSaving st
  /\ classGroup (editName v st) = classGroup st
  /\ isLoading (editName v st) = isLoading st
  /\ isSaving (editName v st) = isSaving st.
Proof.
  intros Hs. rewrite (editNote_loaded t value st s Hs), (editName_loaded v st s Hs).
  split; [|split]; [| |repeat split].
  - eexists. split; [reflexivity|]. repeat split.
    + now destruct t.
    + intros t' Hne. destruct t, t'; try reflexivity; now destruct Hne.
  - eexists. split; [reflexivity|]. repeat split.
Qed.

Lemma edits_keep_the_rest_witness :
  exists s', student (editNote term2 (js "16.5") editing) = Some s'
             /\ noteOf term2 s' = PNumber (of_decimal false 165 (-1))
             /\ noteOf term1 s' = PNumber (of_Z 12).
Proof.
  destruct (edits_keep_the_rest term2 (js "16.5") (js "Ada") editing ada eq_refl)
    as ((s' & E & N & O & _) & _).
  exists s'. split; [exact E|]. split; [exact N|].
  rewrite (O term1) by discriminate. reflexivity.
Defined.

(** X21. Edits of different fields can be made in any order, and of two
    edits of the same field the last one counts; with no student loaded an
    edit does nothing. *)
Theorem edits_commute st :
  (forall t1 t2 a b, t1 <> t2 ->
      editNote t1 a (editNote t2 b st) = editNote t2 b (editNote t1 a st))
  /\ (forall t a v, editName v (editNote t a st) = editNote t a (editName v st))
  /\ (forall t a b, editNote t a (editNote t b st) = editNote t a st)
  /\ (forall v w, editName v (editName w st) = editName v st)
  /\ (student st = None -> forall t a v, editNote t a st = st /\ editName v st = st).
Proof.
  unfold editNote, editName.
  destruct st as [[s|] k l v0]; cbn [student setStudent classGroup isLoading isSaving
                                     student_id name classId note1 note2 note3].
  - repeat split; try discriminate.
    + intros t1 t2 a b Hne. destruct t1, t2; try reflexivity; now destruct Hne.
    + intros t a b. now destruct t.
  - repeat split; reflexivity.
Qed.

Lemma edits_commute_witness :
  editNote term1 (js "9") (editNote term3 (js "11") editing)
  = editNote term3 (js "11") (editNote term1 (js "9") editing).
Proof.
  apply (proj1 (edits_commute editing)). discriminate.
Defined.

(** X22. A score field holds what [Number] makes of its text, [NaN] for a
    text that is not a number. The average counts such a score, like an empty
    field, as 0: after the edit it is the average of the student with 0 for
    that score. *)
Theorem junk_score_counts_as_zero t value s :
  truthy (Literal.StringToNumber value) = false ->
  calculateAverage (withNote t (PNumber (Literal.StringToNumber value)) s)
  = calculateAverage (withNote t (PNumber zero) s).
Proof.
  intros H. unfold calculateAverage, average.
  assert (C : coerced (PNumber (Literal.StringToNumber value)) = coerced (PNumber zero)).
  { unfold coerced, orZero, ToNumber. now rewrite H. }
  destruct t; cbn [withNote note1 note2 note3]; now rewrite C.
Qed.

Lemma junk_score_counts_as_zero_witness :
  calculateAverage (withNote term3 (PNumber (Literal.StringToNumber (js "18 pts"))) ada)
  = js "9.00".
Proof.
  rewrite (junk_score_counts_as_zero term3 (js "18 pts") ada eq_refl).
  reflexivity.
Defined.

Lemma add_comm x y : add x y = add y x.
Proof.
  unfold add, SFadd.
  destruct x as [sx|sx| |sx mx ex], y as [sy|sy| |sy my ey]; try reflexivity;
    try (now destruct sx, sy).
  now rewrite Z.min_comm, Z.add_comm.
Qed.

(** X23. The average does not depend on the order of the first two scores:
    exchanging them gives the same text. Exchanging the first and the third
    can change it, the sum being rounded after each addition: the scores
    [1e16], [-1e16] and 1 give "0.33", and "0.00" with the first and the
    third exchanged. *)
Theorem average_and_order :
  (forall s, calculateAverage (exchanged12 s) = calculateAverage s)
  /\ calculateAverage lopsided = js "0.33"
  /\ calculateAverage (exchanged13 lopsided) = js "0.00".
Proof.
  split; [|split; vm_compute; reflexivity].
  intros s. unfold calculateAverage, average, exchanged12. cbn [note1 note2 note3].
  now rewrite (add_comm (coerced (note2 s))).
Qed.

(** X24. A student all of whose scores are missing, [null], zero, empty or
    not numeric has the average "0.00". *)
Theorem no_scores_average_zero s :
  truthy (ToNumber (note1 s)) = false ->
  truthy (ToNumber (note2 s)) = false ->
  truthy (ToNumber (note3 s)) = false ->
  calculateAverage s = js "0.00".
Proof.
  intros H1 H2 H3. unfold calculateAverage, average, coerced, orZero.
  now rewrite H1, H2, H3.
Qed.

Lemma no_scores_average_zero_witness : calculateAverage newcomer = js "0.00".
Proof. exact (no_scores_average_zero newcomer eq_refl eq_refl eq_refl). Defined.

(** X25. A failed save does not lose what was typed: after a change of
    name and a save that the store refuses, the page still holds the student
    with the new name, and the alert "Failed to save changes." was shown. *)
Theorem failed_save_keeps_edit
    (saveStudent : Student -> settled (option Student)) v st s :
  student st = Some s ->
  saveStudent (withName v s) = Fulfilled None ->
  student (fst (handleSave saveStudent (editName v st))) = Some (withName v s)
  /\ snd (handleSave saveStudent (editName v st))
     = [PreventDefault; Alert (js "Failed to save changes.")].
Proof.
  intros Hs Hfail. rewrite (editName_loaded v st s Hs). unfold handleSave.
  cbn [student setStudent]. now rewrite Hfail.
Qed.

Lemma failed_save_keeps_edit_witness :
  student (fst (handleSave brokenStore_saveStudent (editName (js "Ada L.") editing)))
  = Some (withName (js "Ada L.") ada).
Proof.
  exact (proj1 (failed_save_keeps_edit brokenStore_saveStudent (js "Ada L.") editing ada
                  eq_refl eq_refl)).
Defined.

(* ================================================================== *)
(** * Fences the grade-record parser does not know                     *)
(* ================================================================== *)

Lemma parse_backtick r : JSON.parse (BACKTICK :: r) = None.
Proof. reflexivity. Qed.

(** X26. Only the marker [```json], in lower case and at the very start, is
    removed from the start of an answer. An answer that starts with a backtick
    in any other way, such as a bare [```] fence or [```JSON], keeps it, is
    not valid JSON, and makes [extractGradesFromImage] throw its fixed
    error. *)
Theorem unknown_fence_rejected g file url text :
  ready g -> data_url file = Some url ->
  generateContent g (gradesRequest file (base64Of url))
  = Resolves (Some (BACKTICK :: text)) ->
  strip_prefix (fence ++ js "json") (BACKTICK :: text) = None ->
  result (extractGradesFromImage g file) = Thrown gradesFailure.
Proof.
  intros Hr Hf Hg Hp. rewrite (extractGrades_ready g file url Hr Hf). cbv zeta.
  rewrite Hg. unfold stripFences, stripOpeningFence. rewrite Hp.
  rewrite stripClosingFence_eq.
  destruct (closingFenceHere (BACKTICK :: text)); [reflexivity|].
  now rewrite parse_backtick.
Qed.

Lemma unknown_fence_rejected_witness :
  result (extractGradesFromImage
            (liveGateway (Resolves (Some (fence ++ js "JSON" ++ LF :: gradeSheetJson
                                                ++ LF :: fence)))) photo)
  = Thrown gradesFailure.
Proof.
  apply (unknown_fence_rejected _ photo photoUrl
           ([BACKTICK; BACKTICK] ++ js "JSON" ++ LF :: gradeSheetJson ++ LF :: fence)
           (liveGateway_ready _) eq_refl eq_refl eq_refl).
Defined.
